(** * temfpy.econometrics: the multinomial probit likelihood pipeline

    A shallow embedding of [src/temfpy/econometrics.py]:
    [_multinomial_processing], [_multinomial_probit_loglikeobs],
    [_multinomial_probit_loglike] and [multinomial_probit].

    Conventions of the embedding.
    - A [numpy] float is idealised as an exact rational ([Q]); the only
      arithmetic the pipeline itself performs on floats is [eye + ones],
      [y - y.min()], the scaling of the random draws and the dot product.
      The values [-inf], [+inf] and [nan] that [np.log] and [sum] can
      produce are kept apart in [xfloat].
    - A Python [int] is a [Z]; a [len(...)] is a [nat]; [range(n)] is
      [py_range n], empty for [n <= 0]. An [np.int64] is a [Z] between
      [int64_min] and [int64_max]; the cast of a float to it is written
      out in [astype_int64].
    - A 2-d array is the list of its rows; a labelled [pd.Series] is the
      association list of its labels and values, in order.
    - Exceptions are values of [exn]; code that can raise returns a
      [result]. Code that talks to a collaborator ([patsy], the ambient
      random generator, [temfpy.integration_methods], [estimagic]) runs in
      the state monad [M] over the collaborators' state and a log of the
      calls made. *)

From Stdlib Require Import ZArith QArith Qround String Ascii List Lia DecimalString DecimalNat.
From stdpp Require Import base list strings.

Local Open Scope string_scope.
Local Open Scope list_scope.

(** ** Exceptions and results *)

Inductive exn : Type :=
| SystemExit (msg : string)
| ValueError (msg : string)
| KeyError (key : string)
| IndexError (msg : string)
| TypeError (msg : string)
| AttributeError (name : string)
| CollaboratorError (msg : string).

Inductive result (A : Type) : Type :=
| Ok (a : A)
| Err (e : exn).
Arguments Ok {A} a.
Arguments Err {A} e.

Declare Scope result_scope.
Delimit Scope result_scope with result.
Notation "x <- c1 ;; c2" :=
  (match c1 with Ok x => c2 | Err e => Err e end)
  (at level 100, c1 at next level, right associativity) : result_scope.
Local Open Scope result_scope.

(** ** Python integers and ranges *)

Definition py_range (n : Z) : list nat := seq 0 (Z.to_nat n).

(** ["choice_{}".format(i)] and ["betha_{}".format(name)]. *)
Definition str_of_nat (n : nat) : string :=
  NilEmpty.string_of_uint (Nat.to_uint n).
Definition choice_label (i : nat) : string := ("choice_" ++ str_of_nat i)%string.
Definition betha_label (name : string) : string := ("betha_" ++ name)%string.

(** ** Arrays *)

Abbreviation Matrix := (list (list Q)) (only parsing).

Definition negative_dimensions : exn :=
  ValueError "negative dimensions are not allowed".
Definition could_not_broadcast : exn :=
  ValueError "could not broadcast input array".

(** [np.zeros((r, c))], [np.ones((r, c))], [np.eye(n)]. *)
Definition np_full (v : Q) (r c : Z) : result Matrix :=
  if ((r <? 0) || (c <? 0))%Z then Err negative_dimensions
  else Ok (replicate (Z.to_nat r) (replicate (Z.to_nat c) v)).
Definition np_zeros : Z -> Z -> result Matrix := np_full 0%Q.
Definition np_ones : Z -> Z -> result Matrix := np_full 1%Q.

Definition np_eye (n : Z) : result Matrix :=
  if (n <? 0)%Z then Err negative_dimensions
  else Ok (map (fun i => map (fun j => if (i =? j)%nat then 1%Q else 0%Q)
                          (py_range n)) (py_range n)).

(** Elementwise [a + b] of two arrays of one shape. *)
Definition mat_add (a b : Matrix) : Matrix := zip_with (zip_with Qplus) a b.

(** [m[i][j]], when both indices are in range. *)
Definition entry (m : Matrix) (i j : nat) : option Q :=
  match m !! i with Some row => row !! j | None => None end.

(** The values written by [dest[...] = vals] into a 1-d destination of
    [n] cells: [vals] itself when the shapes agree, its single value
    repeated when it has one, and a [ValueError] otherwise. *)
Definition broadcast_to (n : nat) (vals : list Q) : result (list Q) :=
  if (length vals =? n)%nat then Ok vals
  else match vals with
       | [v] => Ok (replicate n v)
       | _ => Err could_not_broadcast
       end.

(** [v[a:b]] *)
Definition slice (v : list Q) (a b : nat) : list Q := take (b - a) (drop a v).

(** [cov[i, :k] = vals] *)
Definition set_row_prefix (cov : Matrix) (i k : nat) (vals : list Q)
  : result Matrix :=
  match cov !! i with
  | None => Err (IndexError "index is out of bounds for axis 0")
  | Some row =>
      new <- broadcast_to (length (take k row)) vals ;;
      Ok (<[i := new ++ drop k row]> cov)
  end.

(** [cov[i, k:] = vals] *)
Definition set_row_suffix (cov : Matrix) (i k : nat) (vals : list Q)
  : result Matrix :=
  match cov !! i with
  | None => Err (IndexError "index is out of bounds for axis 0")
  | Some row =>
      new <- broadcast_to (length (drop k row)) vals ;;
      Ok (<[i := take k row ++ new]> cov)
  end.

(** [cov[r:, j]]: column [j] of the rows from [r] on. Every row of the
    arrays this is applied to has more than [j] cells. *)
Definition column_from (cov : Matrix) (r j : nat) : list Q :=
  map (fun row => default 0%Q (row !! j)) (drop r cov).

(** [bethas[:, i] = vals] on an array with [n_var] rows. *)
Definition set_column (b : Matrix) (i : nat) (vals : list Q) : result Matrix :=
  new <- broadcast_to (length b) vals ;;
  Ok (zip_with (fun row v => <[i := v]> row) b new).

(** [x.dot(b)], for [b] with [n_cols] columns. *)
Definition dot_row (row : list Q) (b : Matrix) (j : nat) : Q :=
  foldr Qplus 0%Q
        (zip_with (fun xk brow => (xk * default 0 (brow !! j))%Q) row b).
Definition dot (x b : Matrix) (n_cols : nat) : Matrix :=
  map (fun row => map (dot_row row b) (seq 0 n_cols)) x.

(** [len(np.unique(y))] only needs the distinct values, in any order. *)
Definition np_unique (y : list Z) : list Z := remove_dups y.

(** ** The labelled parameter vector *)

(** Second level of the two-level label: a coefficient name or the index
    of a packed covariance entry. *)
Inductive key : Type :=
| KName (name : string)
| KIndex (i : Z).

Abbreviation label := (string * key)%type (only parsing).
Abbreviation Series := (list (string * key * Q)) (only parsing).

(** [params["value"][k].to_numpy()]: the values labelled [k] at the first
    level, in order; a [KeyError] when there is none. *)
Definition select (params : Series) (k : string) : list Q :=
  map snd (filter (fun e => e.1.1 = k) params).
Definition series_get (params : Series) (k : string) : result (list Q) :=
  match select params k with
  | [] => Err (KeyError k)
  | vals => Ok vals
  end.

(** ** Covariance reconstruction ([_multinomial_probit_loglikeobs], lines 136-151) *)

(** First loop: row [i] of the lower triangle is filled from the next
    [i + 1] packed entries, [a] being the running offset. *)
Fixpoint fill_lower (covariance : list Q) (rows : list nat) (a : nat)
         (cov : Matrix) : result Matrix :=
  match rows with
  | [] => Ok cov
  | i :: rows' =>
      let k := (i + 1)%nat in
      cov' <- set_row_prefix cov i (i + 1) (slice covariance a (a + k)) ;;
      fill_lower covariance rows' (a + k) cov'
  end.

(** Second loop: [cov[i, (i + 1):] = cov[(i + 1):, i]]. *)
Fixpoint mirror_upper (rows : list nat) (cov : Matrix) : result Matrix :=
  match rows with
  | [] => Ok cov
  | i :: rows' =>
      cov' <- set_row_suffix cov i (i + 1) (column_from cov (i + 1) i) ;;
      mirror_upper rows' cov'
  end.

(** The [else] branch, from the packed vector on; [d] is [n_choices - 1]. *)
Definition unpack_covariance (covariance : list Q) (d : Z) : result Matrix :=
  cov <- np_zeros d d ;;
  cov <- fill_lower covariance (py_range d) 0 cov ;;
  mirror_upper (py_range d) cov.

Definition covariance_matrix (params : Series) (cov_structure : string)
           (n_choices : nat) : result Matrix :=
  let d := (Z.of_nat n_choices - 1)%Z in
  if cov_structure =? "iid" then
    eye <- np_eye d ;;
    ones <- np_ones d d ;;
    Ok (mat_add eye ones)
  else
    covariance <- series_get params "covariance" ;;
    unpack_covariance covariance d.

(** ** Coefficient matrix (lines 153-156) *)

Fixpoint fill_columns (params : Series) (cols : list nat) (bethas : Matrix)
  : result Matrix :=
  match cols with
  | [] => Ok bethas
  | i :: cols' =>
      vals <- series_get params (choice_label i) ;;
      bethas' <- set_column bethas i vals ;;
      fill_columns params cols' bethas'
  end.

Definition coefficient_matrix (params : Series) (n_var n_choices : nat)
  : result Matrix :=
  bethas <- np_zeros (Z.of_nat n_var) (Z.of_nat n_choices) ;;
  fill_columns params (py_range (Z.of_nat n_choices - 1)) bethas.

(** A 2-d float array as it is handed to the likelihood: its rows and
    [np.shape(x)[1]], the number of cells of every row. *)
Record ndarray : Type := { nd_rows : Matrix; nd_cols : nat }.

(** Lines 133-158: everything up to [u_prime = x.dot(bethas)]. *)
Definition utilities_and_covariance (params : Series) (y : list Z)
           (x : ndarray) (cov_structure : string) : result (Matrix * Matrix) :=
  let n_var := nd_cols x in
  let n_choices := length (np_unique y) in
  cov <- covariance_matrix params cov_structure n_choices ;;
  bethas <- coefficient_matrix params n_var n_choices ;;
  let u_prime := dot (nd_rows x) bethas n_choices in
  Ok (u_prime, cov).

(** ** Packing the lower triangle ([_multinomial_processing], lines 65-69) *)

(** The double loop with its [if j <= i] test. Both indices stay below
    the dimension of the square array it reads. *)
Definition lower_triangle (covariance : Matrix) (d : Z) : list Q :=
  flat_map (fun i =>
    flat_map (fun j => if (j <=? i)%nat
                       then [default 0%Q (entry covariance i j)] else [])
             (py_range d))
    (py_range d).

(** ** Floats with infinities *)

Inductive xfloat : Type :=
| Finite (q : Q)
| NegInf
| PosInf
| NaN.

Definition is_finite (v : xfloat) : bool :=
  match v with Finite _ => true | _ => false end.

Definition xadd (a b : xfloat) : xfloat :=
  match a, b with
  | NaN, _ | _, NaN => NaN
  | Finite p, Finite q => Finite (p + q)
  | NegInf, PosInf | PosInf, NegInf => NaN
  | NegInf, _ | _, NegInf => NegInf
  | PosInf, _ | _, PosInf => PosInf
  end.

(** [a.sum()] *)
Definition xsum (a : list xfloat) : xfloat := foldl xadd (Finite 0) a.

(** The floor [1e-250] handed to [clip]. *)
Definition clip_floor : Q := 1 # 10 ^ 250.

(** [a.clip(min=lo)]: a new array, [a] itself is left as it is. *)
Definition np_clip_min (a : list Q) (lo : Q) : list Q :=
  map (fun p => if Qle_bool lo p then p else lo) a.

(** ** Data frames *)

(** The caller's table: row labels and named columns, a cell being
    missing ([None]) or a number. *)
Record DataFrame : Type :=
  { df_index : list Z;
    df_columns : list (string * list (option Q)) }.

(** What [patsy.dmatrices(formula, data, return_type="dataframe")]
    returns: the outcome frame and the design frame over one row index,
    without missing cells. *)
Record DesignMatrices : Type :=
  { dm_index : list Z;
    dm_y : list (string * list Q);
    dm_x : list (string * list Q) }.

(** [pd.concat([y, x], axis=1)] *)
Definition pd_concat (dm : DesignMatrices) : DataFrame :=
  {| df_index := dm_index dm;
     df_columns := map (fun c => (c.1, map Some c.2)) (dm_y dm ++ dm_x dm) |}.

Definition complete_row (df : DataFrame) (i : nat) : bool :=
  forallb (fun c => match c.2 !! i with Some (Some _) => true | _ => false end)
          (df_columns df).

Definition keep_rows {A} (p : nat -> bool) (l : list A) : list A :=
  map snd (List.filter (fun e => p e.1) (imap pair l)).

(** [df.dropna()]: the rows without a missing cell. *)
Definition dropna (df : DataFrame) : DataFrame :=
  {| df_index := keep_rows (complete_row df) (df_index df);
     df_columns :=
       map (fun c => (c.1, keep_rows (complete_row df) c.2)) (df_columns df) |}.

(** [np.unique] on floats. *)
Fixpoint unique_Q (l : list Q) : list Q :=
  match l with
  | [] => []
  | v :: l' => if existsb (Qeq_bool v) l' then unique_Q l' else v :: unique_Q l'
  end.

(** The cells of a frame, [frame.to_numpy()] flattened. *)
Definition frame_values (cols : list (string * list Q)) : list Q :=
  flat_map snd cols.

(** [col.min()], none for an empty column. *)
Definition col_min (col : list Q) : option Q :=
  match col with
  | [] => None
  | v :: col' => Some (foldl (fun m w => if Qle_bool w m then w else m) v col')
  end.

(** [y - y.min()], column by column. *)
Definition rebase_col (col : list Q) : list Q :=
  match col_min col with
  | Some m => map (fun v => (v - m)%Q) col
  | None => col
  end.
Definition rebase (y : list (string * list Q)) : list (string * list Q) :=
  map (fun c => (c.1, rebase_col c.2)) y.

(** The bounds of [np.int64]. *)
Definition int64_min : Z := (- 2 ^ 63)%Z.
Definition int64_max : Z := (2 ^ 63 - 1)%Z.

(** The cast of a float to [np.int64] drops the fraction. A value whose
    integer part is outside the range of [np.int64] comes out as the
    smallest [np.int64]: this is what the conversion of numpy yields on
    x86-64. *)
Definition astype_int64 (q : Q) : Z :=
  let t := (Qnum q ÷ Zpos (Qden q))%Z in
  if ((int64_min <=? t) && (t <=? int64_max))%Z then t else int64_min.

(** [y.to_numpy(dtype=np.int64).reshape(len(y))] on a frame of [n] rows:
    an [(n, c)] array goes into shape [(n,)] when [c = 1] or [n = 0]. *)
Definition choice_codes (y : list (string * list Q)) (n : nat)
  : result (list Z) :=
  match y with
  | [c] => Ok (map astype_int64 c.2)
  | _ => if (n =? 0)%nat then Ok []
         else Err (ValueError "cannot reshape array")
  end.

(** [x.to_numpy(dtype=np.float64)] on a frame of [n] rows. *)
Definition design_array (x : list (string * list Q)) (n : nat) : ndarray :=
  {| nd_rows := map (fun i => map (fun c => default 0%Q (c.2 !! i)) x) (seq 0 n);
     nd_cols := length x |}.

(** [pd.Series(data=..., index=pd.MultiIndex.from_tuples(index_tuples))] *)
Definition pd_Series (data : list Q) (index_tuples : list label)
  : result Series :=
  match index_tuples with
  | [] => Err (TypeError "Cannot infer number of levels from empty list")
  | _ => if (length data =? length index_tuples)%nat
         then Ok (zip index_tuples data)
         else Err (ValueError "Length of values does not match length of index")
  end.

(** Labels of the coefficient entries (lines 53-59 and 73-79). *)
Definition coefficient_labels (var_names : list string) (n_choices : nat)
  : list label :=
  flat_map (fun choice =>
              map (fun name => (choice_label choice, KName (betha_label name)))
                  var_names)
           (py_range (Z.of_nat n_choices - 1)).

(** ** Constraints and optimiser arguments *)

(** The ["loc"] of a constraint: a first-level label or one entry. *)
Inductive loc : Type :=
| LocBlock (name : string)
| LocEntry (name : string) (i : Z).

(** A constraint dictionary: ["loc"], ["type"] and, when present, ["value"]. *)
Record constraint : Type :=
  { c_loc : loc; c_type : string; c_value : option Q }.

(** [criterion_kwargs] *)
Record criterion_kwargs : Type :=
  { kw_y : list Z;
    kw_x : ndarray;
    kw_cov_structure : string;
    kw_integration_method : string }.

(** Lines 280-287. *)
Definition build_constraints (cov_structure : string) : list constraint :=
  if cov_structure =? "iid" then []
  else [ {| c_loc := LocBlock "covariance"; c_type := "covariance";
            c_value := None |};
         {| c_loc := LocEntry "covariance" 0; c_type := "fixed";
            c_value := Some 1%Q |} ].

(** ** Collaborators *)

(** What [getattr(temfpy.integration_methods, name)] can hand back: an
    integration routine, called as [routine(u_prime, cov, y)], or some
    other attribute of the module, which cannot be called. A routine may
    draw random numbers, so it acts on the collaborators' state. *)
Inductive attribute (W : Type) : Type :=
| Function (f : Matrix -> Matrix -> list Z -> W -> result (list Q) * W)
| NotCallable.
Arguments Function {W} f.
Arguments NotCallable {W}.

(** The code outside this module that the pipeline calls. None of it is
    part of [econometrics.py]; the pipeline is defined, and its properties
    are proved, for every such environment. *)
Record Env : Type :=
  { World : Type;
    OptResult : Type;
    (** [patsy.dmatrices] *)
    patsy_dmatrices :
      string -> DataFrame -> World -> result DesignMatrices * World;
    (** one draw of [np.random.rand] *)
    random_sample : World -> Q * World;
    (** the namespace of [temfpy.integration_methods] *)
    integration_methods : string -> option (attribute World);
    (** [np.log] on a positive float *)
    libm_log : Q -> Q;
    (** [estimagic]'s [maximize(criterion, params, algorithm,
        criterion_kwargs=..., constraints=...)] *)
    estimagic_maximize :
      (Series -> criterion_kwargs -> World -> result xfloat * World) ->
      Series -> string -> criterion_kwargs -> list constraint ->
      World -> result OptResult * World }.

(** The calls the pipeline makes to its collaborators, in order. *)
Inductive event : Type :=
| CalledDmatrices (formula : string) (data : DataFrame)
| CalledRand (n : Z)
| CalledIntegration (name : string) (u_prime cov : Matrix) (y : list Z)
| CalledMaximize (params : Series) (algorithm : string)
                 (kwargs : criterion_kwargs) (constraints : list constraint).

Declare Scope pipeline_scope.
Delimit Scope pipeline_scope with pipeline.

Section Pipeline.
Context (E : Env).

Record state : Type := { world : World E; calls : list event }.

Definition M (A : Type) : Type := state -> result A * state.

Definition ret {A} (a : A) : M A := fun s => (Ok a, s).
Definition raise {A} (e : exn) : M A := fun s => (Err e, s).
Definition bind {A B} (c : M A) (k : A -> M B) : M B :=
  fun s => match c s with
           | (Ok a, s') => k a s'
           | (Err e, s') => (Err e, s')
           end.
Definition lift {A} (r : result A) : M A :=
  match r with Ok a => ret a | Err e => raise e end.

Notation "x <~ c1 ;; c2" := (bind c1 (fun x => c2))
  (at level 100, c1 at next level, right associativity) : pipeline_scope.
Local Open Scope pipeline_scope.

Definition logged (ev : event) (w : World E) (s : state) : state :=
  {| world := w; calls := calls s ++ [ev] |}.

(** [sys.exit(msg)] *)
Definition sys_exit {A} (msg : string) : M A := raise (SystemExit msg).

Definition call_dmatrices (formula : string) (data : DataFrame)
  : M DesignMatrices :=
  fun s => let '(r, w) := patsy_dmatrices E formula data (world s) in
           (r, logged (CalledDmatrices formula data) w s).

Fixpoint samples (n : nat) (w : World E) : list Q * World E :=
  match n with
  | O => ([], w)
  | S n' => let '(v, w1) := random_sample E w in
            let '(vs, w2) := samples n' w1 in
            (v :: vs, w2)
  end.

(** [np.random.rand(n)] *)
Definition np_random_rand (n : Z) : M (list Q) :=
  fun s => if (n <? 0)%Z
           then (Err negative_dimensions, logged (CalledRand n) (world s) s)
           else let '(vs, w) := samples (Z.to_nat n) (world s) in
                (Ok vs, logged (CalledRand n) w s).

(** [getattr(temfpy.integration_methods, name)(u_prime, cov, y)] *)
Definition call_integration (name : string) (u_prime cov : Matrix)
           (y : list Z) : M (list Q) :=
  fun s => match integration_methods E name with
           | None => (Err (AttributeError name), s)
           | Some NotCallable => (Err (TypeError "object is not callable"), s)
           | Some (Function f) =>
               let '(r, w) := f u_prime cov y (world s) in
               (r, logged (CalledIntegration name u_prime cov y) w s)
           end.

(** [np.log], elementwise. *)
Definition np_log (p : Q) : xfloat :=
  if Qle_bool p 0 then (if Qeq_bool p 0 then NegInf else NaN)
  else Finite (libm_log E p).

Definition invalid_cov_structure (cov_structure : string) : bool :=
  negb (cov_structure =? "iid") && negb (cov_structure =? "free").

Definition cov_structure_message : string :=
  "cov_structure must either be iid or free".

(** ** [_multinomial_processing] *)

Definition _multinomial_processing (formula : string) (data : DataFrame)
           (cov_structure : string) : M (list Z * ndarray * Series) :=
  if invalid_cov_structure cov_structure then sys_exit cov_structure_message
  else
    dm <~ call_dmatrices formula data ;;
    let data := dropna (pd_concat dm) in
    dm <~ call_dmatrices formula data ;;
    let y := dm_y dm in
    let x := dm_x dm in
    let n_var := length x in
    let n_choices := length (unique_Q (frame_values y)) in
    draws <~ np_random_rand (Z.of_nat n_var * (Z.of_nat n_choices - 1)) ;;
    let bethas := map (fun v => (v * (1 # 10))%Q) draws in
    labelled <~
      (if cov_structure =? "iid" then
         let index_tuples := coefficient_labels (map fst x) n_choices in
         ret (index_tuples, bethas)
       else
         covariance <~ lift (np_eye (Z.of_nat n_choices - 1)) ;;
         let cov := lower_triangle covariance (Z.of_nat n_choices - 1) in
         let index_tuples := coefficient_labels (map fst x) n_choices in
         let j := (Z.of_nat n_choices * (Z.of_nat n_choices - 1) ÷ 2)%Z in
         let index_tuples :=
           index_tuples
             ++ map (fun i => ("covariance", KIndex (Z.of_nat i))) (py_range j) in
         ret (index_tuples, bethas ++ cov)) ;;
    let '(index_tuples, start_params) := labelled in
    params_sr <~ lift (pd_Series start_params index_tuples) ;;
    let y := rebase y in
    codes <~ lift (choice_codes y (length (dm_index dm))) ;;
    ret (codes, design_array x (length (dm_index dm)), params_sr).

(** ** [_multinomial_probit_loglikeobs] *)

Definition _multinomial_probit_loglikeobs (params : Series) (y : list Z)
           (x : ndarray) (cov_structure integration_method : string)
  : M (list xfloat) :=
  if invalid_cov_structure cov_structure then sys_exit cov_structure_message
  else
    prepared <~ lift (utilities_and_covariance params y x cov_structure) ;;
    let '(u_prime, cov) := prepared in
    choice_prob_obs <~
      (if cov_structure =? "gauss_integration"
       then call_integration "gauss_integration" u_prime cov y
       else call_integration integration_method u_prime cov y) ;;
    let _ := np_clip_min choice_prob_obs clip_floor in
    let loglikeobs := map np_log choice_prob_obs in
    ret loglikeobs.

(** ** [_multinomial_probit_loglike]

    The optimiser always passes [integration_method] by keyword, so its
    default value is not modelled. *)

Definition _multinomial_probit_loglike (params : Series) (y : list Z)
           (x : ndarray) (cov_structure integration_method : string)
  : M xfloat :=
  obs <~ _multinomial_probit_loglikeobs params y x cov_structure
                                        integration_method ;;
  ret (xsum obs).

(** The criterion as [maximize] calls it: [criterion(params, **kwargs)].
    The calls it makes are the optimiser's own and stay out of the log. *)
Definition criterion (params : Series) (kw : criterion_kwargs)
           (w : World E) : result xfloat * World E :=
  let '(r, s) :=
    _multinomial_probit_loglike params (kw_y kw) (kw_x kw)
      (kw_cov_structure kw) (kw_integration_method kw)
      {| world := w; calls := [] |} in
  (r, world s).

Definition call_maximize (params : Series) (algorithm : string)
           (kw : criterion_kwargs) (constraints : list constraint)
  : M (OptResult E) :=
  fun s => let '(r, w) :=
             estimagic_maximize E criterion params algorithm kw constraints
                                (world s) in
           (r, logged (CalledMaximize params algorithm kw constraints) w s).

(** ** [multinomial_probit]

    [params_df] is the series as a one-column frame; the model keeps the
    ["value"] column only. *)

Definition multinomial_probit (formula : string) (data : DataFrame)
           (cov_structure integration_method algorithm : string)
  : M (OptResult E) :=
  if invalid_cov_structure cov_structure then sys_exit cov_structure_message
  else
    processed <~ _multinomial_processing formula data cov_structure ;;
    let '(y, x, params) := processed in
    let params_df := params in
    let constraints := build_constraints cov_structure in
    call_maximize params_df algorithm
      {| kw_y := y; kw_x := x; kw_cov_structure := cov_structure;
         kw_integration_method := integration_method |}
      constraints.

End Pipeline.

Arguments world {E} s.
Arguments calls {E} s.

(** ** A concrete environment

    Stand-ins for the collaborators, small enough to run the pipeline on
    concrete tables. *)
Module Sample.

(** A formula parser for tables whose first column is the outcome: the
    design is an intercept and the remaining columns, over the complete
    rows. *)
Definition dmatrices (formula : string) (data : DataFrame) (w : nat)
  : result DesignMatrices * nat :=
  let df := dropna data in
  let values := fun c : string * list (option Q) =>
                  (c.1, map (default 0%Q) c.2) in
  match df_columns df with
  | [] => (Err (CollaboratorError "PatsyError"), w)
  | ycol :: xcols =>
      (Ok {| dm_index := df_index df;
             dm_y := [values ycol];
             dm_x := ("Intercept", map (fun _ => 1%Q) (df_index df))
                       :: map values
                            (List.filter
                               (fun c => negb (c.1 =? "Intercept")) xcols) |},
       w)
  end.

(** A frequency simulator with a single draw of the errors, all zero:
    the estimate is 1 where the recorded choice has the largest utility
    and 0 elsewhere. *)
Definition one_draw (u_prime cov : Matrix) (y : list Z) (w : nat)
  : result (list Q) * nat :=
  (Ok (zip_with
         (fun row c =>
            let own := default 0%Q (row !! Z.to_nat c) in
            if forallb (fun u => Qle_bool u own) row then 1%Q else 0%Q)
         u_prime y),
   S w).

(** Equal probabilities for all alternatives. *)
Definition equal_shares (u_prime cov : Matrix) (y : list Z) (w : nat)
  : result (list Q) * nat :=
  (Ok (map (fun row => (1 # Pos.of_nat (length row))%Q) u_prime), w).

Definition library (name : string) : option (attribute nat) :=
  if name =? "mc_integration" then Some (Function one_draw)
  else if name =? "gauss_integration" then Some (Function equal_shares)
  else if name =? "__name__" then Some NotCallable
  else None.

(** An optimiser that evaluates the criterion at the start values and
    stops. *)
Definition maximize
           (crit : Series -> criterion_kwargs -> nat -> result xfloat * nat)
           (params : Series) (algorithm : string) (kw : criterion_kwargs)
           (constraints : list constraint) (w : nat)
  : result (Series * xfloat) * nat :=
  match crit params kw w with
  | (Ok v, w') => (Ok (params, v), w')
  | (Err e, w') => (Err e, w')
  end.

Definition env : Env :=
  {| World := nat;
     OptResult := Series * xfloat;
     patsy_dmatrices := dmatrices;
     random_sample := fun w => ((1 # Pos.of_succ_nat w)%Q, S w);
     integration_methods := library;
     (* first term of the series of the logarithm in (p - 1) / (p + 1) *)
     libm_log := fun p => (2 * (p - 1) / (p + 1))%Q;
     estimagic_maximize := maximize |}.

Definition start : state env := Build_state env 0%nat [].

Definition table (outcome regressor : list Q) : DataFrame :=
  {| df_index := map Z.of_nat (seq 0 (length outcome));
     df_columns := [("y", map Some outcome); ("x", map Some regressor)] |}.

(** Outcome categories 1, 2, 3. *)
Definition grades : DataFrame :=
  table [1; 2; 3; 2]%Q [1 # 2; 1; 3 # 2; 2]%Q.


(** Outcome values 0 and [2 ^ 63]. *)
Definition wide : DataFrame :=
  table [0%Q; inject_Z (2 ^ 63)] [1 # 2; 1]%Q.

(** Two alternatives, one regressor. *)
Definition binary_params : Series :=
  [(("choice_0", KName "betha_Intercept"), 1%Q)].
Definition binary_x : ndarray :=
  {| nd_rows := [[1%Q]; [1%Q]]; nd_cols := 1 |}.

(** Three alternatives, one regressor, packed covariance (1, 1/2, 2). *)
Definition free_params : Series :=
  [(("choice_0", KName "betha_Intercept"), 1 # 10);
   (("choice_1", KName "betha_Intercept"), 1 # 5);
   (("covariance", KIndex 0), 1);
   (("covariance", KIndex 1), 1 # 2);
   (("covariance", KIndex 2), 2)]%Q.

End Sample.

(** Runs of data preparation on the sample tables. *)
Module Runs.

Definition prepared (data : DataFrame) (cov_structure : string) :=
  _multinomial_processing Sample.env "y ~ x" data cov_structure Sample.start.

Definition codes_of (data : DataFrame) (cov_structure : string) : list Z :=
  match prepared data cov_structure with
  | (Ok (codes, _, _), _) => codes
  | _ => []
  end.
Definition design_of (data : DataFrame) (cov_structure : string) : ndarray :=
  match prepared data cov_structure with
  | (Ok (_, design, _), _) => design
  | _ => {| nd_rows := []; nd_cols := 0 |}
  end.
Definition params_of (data : DataFrame) (cov_structure : string) : Series :=
  match prepared data cov_structure with
  | (Ok (_, _, params), _) => params
  | _ => []
  end.

Definition grades_codes : list Z :=
  Eval vm_compute in codes_of Sample.grades "free".
Definition grades_design : ndarray :=
  Eval vm_compute in design_of Sample.grades "free".
Definition grades_params : Series :=
  Eval vm_compute in params_of Sample.grades "free".
Definition grades_state : state Sample.env :=
  Eval vm_compute in (prepared Sample.grades "free").2.


Definition wide_design : ndarray :=
  Eval vm_compute in design_of Sample.wide "iid".
Definition wide_params : Series :=
  Eval vm_compute in params_of Sample.wide "iid".
Definition wide_state : state Sample.env :=
  Eval vm_compute in (prepared Sample.wide "iid").2.

End Runs.

(** ** Predicates and reference definitions used in the statements *)

(** [I + 11ᵗ] of dimension [d]: 2 on the diagonal and 1 elsewhere. *)
Definition identity_plus_ones (d : nat) : Matrix :=
  map (fun i => map (fun j => if (i =? j)%nat then 2%Q else 1%Q) (seq 0 d))
      (seq 0 d).

(** A [d x d] array. *)
Definition square (d : nat) (m : Matrix) : Prop :=
  length m = d /\ Forall (fun row => length row = d) m.

(** State of the second loop before iteration [k], started on [l]: the
    lower triangle is as in [l], and the rows above [k] carry, right of
    the diagonal, the column of [l] below it. *)
Definition mirrored (d : nat) (l : Matrix) (k : nat) (m : Matrix) : Prop :=
  square d m
  /\ (forall i j, (j <= i)%nat -> entry m i j = entry l i j)
  /\ (forall i j, (i < k)%nat -> (i < j)%nat -> (j < d)%nat ->
                  entry m i j = entry l j i).

(** The offset [a] before row [i]: [0, 1, 3, 6, ...]. *)
Fixpoint offset (i : nat) : nat :=
  match i with
  | O => 0
  | S i' => offset i' + (i' + 1)
  end.

(** State of the first loop before row [k], on the packed vector [v]. *)
Definition filled (d : nat) (v : list Q) (k : nat) (m : Matrix) : Prop :=
  square d m
  /\ forall i j, (i < k)%nat -> (j <= i)%nat ->
                 entry m i j = v !! (offset i + j)%nat.

Definition is_exit (e : exn) : bool :=
  match e with SystemExit _ => true | _ => false end.

(** What the call [getattr(temfpy.integration_methods, name)(u_prime,
    cov, y)] followed by the logarithm comes to. *)
Definition integrate_and_log (E : Env) (name : string) (u_prime cov : Matrix)
           (y : list Z) (s : state E) : result (list xfloat) * state E :=
  match integration_methods E name with
  | None => (Err (AttributeError name), s)
  | Some NotCallable => (Err (TypeError "object is not callable"), s)
  | Some (Function f) =>
      let '(r, w) := f u_prime cov y (world s) in
      (match r with
       | Ok probs => Ok (map (np_log E) probs)
       | Err e => Err e
       end,
       logged E (CalledIntegration name u_prime cov y) w s)
  end.


(** The outcome values spread over less than [2 ^ 63]: the difference
    of any two of them has an integer part within the range of
    [np.int64]. *)
Definition within_int64 (values : list Q) : Prop :=
  forall v w, In v values -> In w values -> (v - w < inject_Z (2 ^ 63))%Q.


(** An array of [r] rows and [c] columns. *)
Definition shaped (r c : nat) (m : Matrix) : Prop :=
  length m = r /\ Forall (fun row => length row = c) m.

(** The start values of the coefficients: the draws scaled by 0.1
    (line 49). *)
Definition scaled (draws : list Q) : list Q :=
  map (fun v => (v * (1 # 10))%Q) draws.

(** Labels of the packed covariance entries (lines 81-82). *)
Definition covariance_labels (n_choices : nat) : list (string * key) :=
  map (fun i => ("covariance", KIndex (Z.of_nat i)))
      (py_range (Z.of_nat n_choices * (Z.of_nat n_choices - 1) ÷ 2)).

(** The number of distinct outcome values of a parse (line 47). *)
Definition observed_choices (dm : DesignMatrices) : nat :=
  length (unique_Q (frame_values (dm_y dm))).

(** The calls of a successful data preparation. *)
Definition preparation_calls (formula : string) (data : DataFrame)
           (dm1 dm : DesignMatrices) : list event :=
  [CalledDmatrices formula data;
   CalledDmatrices formula (dropna (pd_concat dm1));
   CalledRand (Z.of_nat (length (dm_x dm))
               * (Z.of_nat (observed_choices dm) - 1))].

(** The calls data preparation has made when it stops with the result
    [r]: none when [cov_structure] is refused, the first parse when
    this parse fails, both parses when the second one fails, and the
    two parses followed by the request for random numbers in every
    other case. *)
Definition preparation_log (E : Env) (formula : string) (data : DataFrame)
           (cs : string) (s : state E)
           (r : result (list Z * ndarray * Series)) (evs : list event) : Prop :=
  (invalid_cov_structure cs = true /\ evs = [])
  \/ (exists e w1,
        patsy_dmatrices E formula data (world s) = (Err e, w1)
        /\ r = Err e
        /\ evs = [CalledDmatrices formula data])
  \/ (exists dm1 w1,
        patsy_dmatrices E formula data (world s) = (Ok dm1, w1)
        /\ ((exists e w2,
               patsy_dmatrices E formula (dropna (pd_concat dm1)) w1
               = (Err e, w2)
               /\ r = Err e
               /\ evs = [CalledDmatrices formula data;
                         CalledDmatrices formula (dropna (pd_concat dm1))])
            \/ (exists dm w2,
                  patsy_dmatrices E formula (dropna (pd_concat dm1)) w1
                  = (Ok dm, w2)
                  /\ evs = preparation_calls formula data dm1 dm))).

(** The identity matrix of dimension [d], the value of [np.eye(d)]. *)
Definition identity (d : nat) : Matrix :=
  map (fun i => map (fun j => if (i =? j)%nat then 1%Q else 0%Q) (seq 0 d))
      (seq 0 d).

(** * Properties *)

(** ** Ranges and array constructors *)

Lemma py_range_of_nat (n : nat) : py_range (Z.of_nat n) = seq 0 n.
Proof. unfold py_range. by rewrite Nat2Z.id. Qed.

Lemma pred_of_succ (d : nat) : (Z.of_nat (S d) - 1)%Z = Z.of_nat d.
Proof. lia. Qed.

Lemma np_full_of_nat (v : Q) (r c : nat) :
  np_full v (Z.of_nat r) (Z.of_nat c) = Ok (replicate r (replicate c v)).
Proof.
  unfold np_full.
  destruct (Z.ltb_spec (Z.of_nat r) 0); [lia |].
  destruct (Z.ltb_spec (Z.of_nat c) 0); [lia |].
  cbn. by rewrite !Nat2Z.id.
Qed.

Lemma np_eye_of_nat (n : nat) :
  np_eye (Z.of_nat n)
  = Ok (map (fun i => map (fun j => if (i =? j)%nat then 1%Q else 0%Q) (seq 0 n))
            (seq 0 n)).
Proof.
  unfold np_eye.
  destruct (Z.ltb_spec (Z.of_nat n) 0); [lia |].
  by rewrite py_range_of_nat.
Qed.

Lemma map_fmap {A B} (f : A -> B) (l : list A) : map f l = f <$> l.
Proof. reflexivity. Qed.

Lemma lookup_map {A B} (f : A -> B) (l : list A) (i : nat) :
  map f l !! i = f <$> l !! i.
Proof. rewrite map_fmap. apply list_lookup_fmap. Qed.

Lemma zip_with_map_replicate {A B C D} (f : B -> C -> D) (g : A -> B) (c : C)
      (l : list A) :
  zip_with f (map g l) (replicate (length l) c) = map (fun a => f (g a) c) l.
Proof. induction l as [| a l IH]; cbn; [done | by rewrite IH]. Qed.

(** ** The fixed covariance of the independent structure *)

Lemma eye_plus_ones (d : nat) :
  mat_add
    (map (fun i => map (fun j => if (i =? j)%nat then 1%Q else 0%Q) (seq 0 d))
         (seq 0 d))
    (replicate d (replicate d 1%Q))
  = identity_plus_ones d.
Proof.
  unfold mat_add, identity_plus_ones.
  replace (replicate d (replicate d 1%Q))
    with (replicate (length (seq 0 d)) (replicate (length (seq 0 d)) 1%Q))
    by (by rewrite length_seq).
  rewrite zip_with_map_replicate.
  apply map_ext. intros i.
  rewrite zip_with_map_replicate.
  apply map_ext. intros j.
  by destruct (i =? j)%nat.
Qed.

Lemma covariance_matrix_iid (params : Series) (d : nat) :
  covariance_matrix params "iid" (S d) = Ok (identity_plus_ones d).
Proof.
  unfold covariance_matrix. cbn [String.eqb Ascii.eqb Bool.eqb].
  rewrite pred_of_succ, np_eye_of_nat.
  unfold np_ones. rewrite np_full_of_nat.
  by rewrite eye_plus_ones.
Qed.

Lemma identity_plus_ones_entry (d i j : nat) :
  entry (identity_plus_ones d) i j
  = if (i <? d)%nat && (j <? d)%nat
    then Some (if (i =? j)%nat then 2%Q else 1%Q) else None.
Proof.
  unfold entry, identity_plus_ones.
  rewrite lookup_map.
  destruct (Nat.ltb_spec i d) as [Hi | Hi]; cbn [andb].
  - rewrite lookup_seq_lt by done. cbn [fmap option_fmap option_map].
    rewrite lookup_map.
    destruct (Nat.ltb_spec j d) as [Hj | Hj].
    + by rewrite lookup_seq_lt.
    + by rewrite lookup_seq_ge.
  - by rewrite lookup_seq_ge.
Qed.

(** C9. Under ["iid"] the covariance used in the likelihood is, for every
    parameter vector, the fixed matrix [I + 11ᵗ] of dimension
    [n_choices - 1]; for three alternatives it is [[2, 1], [1, 2]]. *)
Theorem iid_covariance_is_identity_plus_ones :
  (forall (params : Series) (d : nat),
      covariance_matrix params "iid" (S d) = Ok (identity_plus_ones d))
  /\ (forall d i j : nat,
        entry (identity_plus_ones d) i j
        = if (i <? d)%nat && (j <? d)%nat
          then Some (if (i =? j)%nat then 2%Q else 1%Q) else None)
  /\ (forall params : Series,
        covariance_matrix params "iid" 3 = Ok [[2; 1]; [1; 2]]%Q).
Proof.
  split; [apply covariance_matrix_iid |].
  split; [apply identity_plus_ones_entry |].
  intros params. by rewrite covariance_matrix_iid.
Qed.

(** ** Validation of [cov_structure] *)

Lemma invalid_cov_structure_true (cs : string) :
  cs <> "iid" -> cs <> "free" -> invalid_cov_structure cs = true.
Proof.
  intros Hiid Hfree. unfold invalid_cov_structure.
  apply String.eqb_neq in Hiid, Hfree. by rewrite Hiid, Hfree.
Qed.

Lemma invalid_cov_structure_false (cs : string) :
  cs = "iid" \/ cs = "free" ->
  invalid_cov_structure cs = false /\ (cs =? "gauss_integration") = false.
Proof. by intros [-> | ->]. Qed.

(** C2. A [cov_structure] other than ["iid"] and ["free"] makes each of
    [_multinomial_processing], [_multinomial_probit_loglikeobs] and
    [multinomial_probit] exit with the message naming [cov_structure],
    whatever the other arguments are, with the collaborators' state and
    the log of calls unchanged: nothing was parsed, drawn, integrated or
    optimised, and no result is returned. *)
Theorem invalid_cov_structure_exits_first (E : Env) (cs : string) :
  cs <> "iid" -> cs <> "free" ->
  (forall formula data (s : state E),
      _multinomial_processing E formula data cs s
      = (Err (SystemExit "cov_structure must either be iid or free"), s))
  /\ (forall params y x integration_method (s : state E),
        _multinomial_probit_loglikeobs E params y x cs integration_method s
        = (Err (SystemExit "cov_structure must either be iid or free"), s))
  /\ (forall formula data integration_method algorithm (s : state E),
        multinomial_probit E formula data cs integration_method algorithm s
        = (Err (SystemExit "cov_structure must either be iid or free"), s)).
Proof.
  intros Hiid Hfree.
  pose proof (invalid_cov_structure_true cs Hiid Hfree) as Hinv.
  unfold _multinomial_processing, _multinomial_probit_loglikeobs,
    multinomial_probit.
  rewrite Hinv. by repeat split.
Qed.

Lemma invalid_cov_structure_exits_first_witness :
  "other" <> "iid" /\ "other" <> "free"
  /\ multinomial_probit Sample.env "y ~ x" Sample.grades "other"
       "gauss_integration" "scipy_lbfgsb" Sample.start
     = (Err (SystemExit "cov_structure must either be iid or free"),
        Sample.start).
Proof.
  split; [discriminate |]. split; [discriminate |].
  apply (invalid_cov_structure_exits_first Sample.env "other");
    discriminate.
Defined.

(** ** Dispatch to the integration routine *)

Lemma loglikeobs_unfold (E : Env) params y x cs im (s : state E) :
  cs = "iid" \/ cs = "free" ->
  _multinomial_probit_loglikeobs E params y x cs im s
  = match utilities_and_covariance params y x cs with
    | Err e => (Err e, s)
    | Ok (u_prime, cov) => integrate_and_log E im u_prime cov y s
    end.
Proof.
  intros Hcs. destruct (invalid_cov_structure_false cs Hcs) as [Hv Hg].
  unfold _multinomial_probit_loglikeobs. rewrite Hv, Hg.
  unfold bind, lift.
  destruct (utilities_and_covariance params y x cs) as [[u cov] | e]; [| done].
  cbn. unfold integrate_and_log, call_integration.
  destruct (integration_methods E im) as [[f |] |]; try done.
  destruct (f u cov y (world s)) as [[probs | e] w]; done.
Qed.

Lemma utilities_and_covariance_ok params y x cs u_prime cov :
  utilities_and_covariance params y x cs = Ok (u_prime, cov) ->
  covariance_matrix params cs (length (np_unique y)) = Ok cov
  /\ exists bethas,
      coefficient_matrix params (nd_cols x) (length (np_unique y)) = Ok bethas
      /\ u_prime = dot (nd_rows x) bethas (length (np_unique y)).
Proof.
  unfold utilities_and_covariance.
  destruct (covariance_matrix _ _ _) as [c |]; [| done].
  destruct (coefficient_matrix _ _ _) as [b |]; [| done].
  intros [= <- <-]. eauto.
Qed.

Lemma dot_shape (x b : Matrix) (n_cols : nat) :
  length (dot x b n_cols) = length x
  /\ Forall (fun row => length row = n_cols) (dot x b n_cols).
Proof.
  unfold dot. split; [by rewrite length_map |].
  apply Forall_forall. intros row Hrow.
  apply list_elem_of_In, in_map_iff in Hrow as [r [<- _]].
  by rewrite length_map, length_seq.
Qed.

(** C4. For a valid [cov_structure] the routine is looked up under
    [integration_method] alone and called on [(u_prime, cov, y)], with
    [u_prime = x.dot(bethas)] of shape [n x n_choices]; the test
    [cov_structure == "gauss_integration"] is false, so its branch is
    never taken. *)
Theorem dispatch_by_integration_method (E : Env) params y x cs im
        (s : state E) :
  cs = "iid" \/ cs = "free" ->
  (cs =? "gauss_integration") = false
  /\ match utilities_and_covariance params y x cs with
     | Err e => _multinomial_probit_loglikeobs E params y x cs im s = (Err e, s)
     | Ok (u_prime, cov) =>
         covariance_matrix params cs (length (np_unique y)) = Ok cov
         /\ (exists bethas,
                coefficient_matrix params (nd_cols x) (length (np_unique y))
                = Ok bethas
                /\ u_prime = dot (nd_rows x) bethas (length (np_unique y)))
         /\ length u_prime = length (nd_rows x)
         /\ Forall (fun row => length row = length (np_unique y)) u_prime
         /\ _multinomial_probit_loglikeobs E params y x cs im s
            = match integration_methods E im with
              | None => (Err (AttributeError im), s)
              | Some NotCallable => (Err (TypeError "object is not callable"), s)
              | Some (Function f) =>
                  let '(r, w) := f u_prime cov y (world s) in
                  (match r with
                   | Ok probs => Ok (map (np_log E) probs)
                   | Err e => Err e
                   end,
                   logged E (CalledIntegration im u_prime cov y) w s)
              end
     end.
Proof.
  intros Hcs. split; [apply (invalid_cov_structure_false cs Hcs) |].
  rewrite (loglikeobs_unfold E params y x cs im s Hcs).
  destruct (utilities_and_covariance params y x cs) as [[u cov] | e] eqn:Hprep;
    [| done].
  destruct (utilities_and_covariance_ok _ _ _ _ _ _ Hprep)
    as [Hcov [bethas [Hb ->]]].
  split; [done |]. split; [by exists bethas |].
  destruct (dot_shape (nd_rows x) bethas (length (np_unique y))) as [Hl Hr].
  done.
Qed.

Lemma dispatch_by_integration_method_witness :
  ("iid" = "iid" \/ "iid" = "free")
  /\ _multinomial_probit_loglikeobs Sample.env Sample.binary_params [0; 1]%Z
       Sample.binary_x "iid" "mc_integration" Sample.start
     = (Ok [Finite (0 # 2); NegInf],
        logged Sample.env
          (CalledIntegration "mc_integration" [[1; 0]; [1; 0]]%Q [[2]]%Q
                             [0; 1]%Z)
          1%nat Sample.start).
Proof.
  split; [by left |].
  pose proof (dispatch_by_integration_method Sample.env Sample.binary_params
                [0; 1]%Z Sample.binary_x "iid" "mc_integration" Sample.start
                (or_introl eq_refl)) as [_ H].
  assert (Hu : utilities_and_covariance Sample.binary_params [0; 1]%Z
                 Sample.binary_x "iid"
               = Ok ([[1; 0]; [1; 0]]%Q, [[2]]%Q)) by reflexivity.
  rewrite Hu in H. destruct H as (_ & _ & _ & _ & H).
  exact H.
Defined.

(** ** Errors raised before the dispatch *)

Ltac split_result H :=
  repeat match type of H with
         | match ?r with Ok _ => _ | Err _ => _ end = _ =>
             let E := fresh "E" in destruct r eqn:E
         | match ?r with Some _ => _ | None => _ end = _ =>
             let E := fresh "E" in destruct r eqn:E
         | (if ?b then _ else _) = _ =>
             let E := fresh "E" in destruct b eqn:E
         end.

Lemma np_full_err v r c e : np_full v r c = Err e -> is_exit e = false.
Proof. unfold np_full. intros H. split_result H; by simplify_eq. Qed.

Lemma np_eye_err n e : np_eye n = Err e -> is_exit e = false.
Proof. unfold np_eye. intros H. split_result H; by simplify_eq. Qed.

Lemma broadcast_to_err n vals e : broadcast_to n vals = Err e -> is_exit e = false.
Proof.
  unfold broadcast_to. intros H. split_result H; [done |].
  destruct vals as [| v [| v' vals]]; by simplify_eq.
Qed.

Lemma series_get_err params k e : series_get params k = Err e -> is_exit e = false.
Proof.
  unfold series_get. destruct (select params k); intros H; by simplify_eq.
Qed.

Lemma set_row_prefix_err cov i k vals e :
  set_row_prefix cov i k vals = Err e -> is_exit e = false.
Proof.
  unfold set_row_prefix. intros H. split_result H; simplify_eq; [| done].
  eauto using broadcast_to_err.
Qed.

Lemma set_row_suffix_err cov i k vals e :
  set_row_suffix cov i k vals = Err e -> is_exit e = false.
Proof.
  unfold set_row_suffix. intros H. split_result H; simplify_eq; [| done].
  eauto using broadcast_to_err.
Qed.

Lemma set_column_err b i vals e :
  set_column b i vals = Err e -> is_exit e = false.
Proof.
  unfold set_column. intros H. split_result H; simplify_eq.
  eauto using broadcast_to_err.
Qed.

Lemma fill_lower_err covariance rows a cov e :
  fill_lower covariance rows a cov = Err e -> is_exit e = false.
Proof.
  revert a cov. induction rows as [| i rows IH]; intros a cov; cbn; [done |].
  intros H. split_result H; eauto using set_row_prefix_err.
  by simplify_eq; eauto using set_row_prefix_err.
Qed.

Lemma mirror_upper_err rows cov e :
  mirror_upper rows cov = Err e -> is_exit e = false.
Proof.
  revert cov. induction rows as [| i rows IH]; intros cov; cbn; [done |].
  intros H. split_result H; eauto using set_row_suffix_err.
  by simplify_eq; eauto using set_row_suffix_err.
Qed.

Lemma fill_columns_err params cols b e :
  fill_columns params cols b = Err e -> is_exit e = false.
Proof.
  revert b. induction cols as [| i cols IH]; intros b; cbn; [done |].
  intros H. split_result H; simplify_eq;
    eauto using set_column_err, series_get_err.
Qed.

Lemma covariance_matrix_err params cs n e :
  covariance_matrix params cs n = Err e -> is_exit e = false.
Proof.
  unfold covariance_matrix, unpack_covariance, np_ones, np_zeros.
  intros H. split_result H; simplify_eq;
    eauto using np_eye_err, np_full_err, series_get_err, fill_lower_err,
      mirror_upper_err.
Qed.

Lemma coefficient_matrix_err params n_var n e :
  coefficient_matrix params n_var n = Err e -> is_exit e = false.
Proof.
  unfold coefficient_matrix, np_zeros.
  intros H. split_result H; simplify_eq;
    eauto using np_full_err, fill_columns_err.
Qed.

Lemma utilities_and_covariance_err params y x cs e :
  utilities_and_covariance params y x cs = Err e -> is_exit e = false.
Proof.
  unfold utilities_and_covariance.
  intros H. split_result H; simplify_eq;
    eauto using covariance_matrix_err, coefficient_matrix_err.
Qed.

(** ** What data preparation accepts *)

Lemma processing_ok_valid (E : Env) formula data cs (s s1 : state E) out :
  _multinomial_processing E formula data cs s = (Ok out, s1) ->
  cs = "iid" \/ cs = "free".
Proof.
  unfold _multinomial_processing, invalid_cov_structure.
  destruct (String.eqb_spec cs "iid") as [-> | _]; [by left |].
  destruct (String.eqb_spec cs "free") as [-> | _]; [by right |].
  cbn. discriminate.
Qed.

Lemma multinomial_probit_unfold (E : Env) formula data cs im algorithm
      (s s1 : state E) codes design start :
  _multinomial_processing E formula data cs s = (Ok (codes, design, start), s1) ->
  multinomial_probit E formula data cs im algorithm s
  = call_maximize E start algorithm
      {| kw_y := codes; kw_x := design; kw_cov_structure := cs;
         kw_integration_method := im |}
      (build_constraints cs) s1.
Proof.
  intros Hp. pose proof (processing_ok_valid _ _ _ _ _ _ _ Hp) as Hcs.
  destruct (invalid_cov_structure_false cs Hcs) as [Hv _].
  unfold multinomial_probit. rewrite Hv. unfold bind. by rewrite Hp.
Qed.

(** C10. With a valid [cov_structure] and an [integration_method] that
    names no function of the integration library, the likelihood fails,
    and never with the configuration exit: once the utilities are
    computed, the failure is the [AttributeError] of the lookup when the
    name is not an attribute of the library (the [TypeError] of the call
    when it names something that is not a function). Before that nothing
    looks at [integration_method]: data preparation does not take it, and
    [multinomial_probit] hands it to the optimiser as it is. *)
Theorem unknown_integration_method_fails_in_dispatch (E : Env) params y x cs im
        (s : state E) :
  cs = "iid" \/ cs = "free" ->
  (forall f, integration_methods E im <> Some (Function f)) ->
  (exists e, _multinomial_probit_loglikeobs E params y x cs im s = (Err e, s)
             /\ is_exit e = false)
  /\ (forall u_prime cov,
         utilities_and_covariance params y x cs = Ok (u_prime, cov) ->
         (integration_methods E im = None ->
          _multinomial_probit_loglikeobs E params y x cs im s
          = (Err (AttributeError im), s))
         /\ (integration_methods E im = Some NotCallable ->
             _multinomial_probit_loglikeobs E params y x cs im s
             = (Err (TypeError "object is not callable"), s)))
  /\ (forall formula data algorithm codes design start (s1 : state E),
         _multinomial_processing E formula data cs s
         = (Ok (codes, design, start), s1) ->
         multinomial_probit E formula data cs im algorithm s
         = call_maximize E start algorithm
             {| kw_y := codes; kw_x := design; kw_cov_structure := cs;
                kw_integration_method := im |}
             (build_constraints cs) s1).
Proof.
  intros Hcs Hno.
  rewrite (loglikeobs_unfold E params y x cs im s Hcs).
  split; [| split].
  - destruct (utilities_and_covariance params y x cs) as [[u cov] | e] eqn:Hprep.
    + unfold integrate_and_log.
      destruct (integration_methods E im) as [[f |] |] eqn:Hlook.
      * by destruct (Hno f).
      * by eexists.
      * by eexists.
    + exists e. eauto using utilities_and_covariance_err.
  - intros u cov ->. unfold integrate_and_log. by split; intros ->.
  - intros. by apply multinomial_probit_unfold.
Qed.

Lemma unknown_integration_method_fails_in_dispatch_witness :
  ("iid" = "iid" \/ "iid" = "free")
  /\ (forall f, integration_methods Sample.env "quadrature" <> Some (Function f))
  /\ _multinomial_probit_loglikeobs Sample.env Sample.binary_params [0; 1]%Z
       Sample.binary_x "iid" "quadrature" Sample.start
     = (Err (AttributeError "quadrature"), Sample.start).
Proof.
  split; [by left |]. split; [by intros f |].
  destruct (unknown_integration_method_fails_in_dispatch Sample.env
              Sample.binary_params [0; 1]%Z Sample.binary_x "iid" "quadrature"
              Sample.start (or_introl eq_refl)) as (_ & H & _).
  - by intros f.
  - by apply (H [[1; 0]; [1; 0]]%Q [[2]]%Q).
Defined.

(** ** The constraint list *)

(** C3. When [multinomial_probit] reaches the optimiser it has called it
    once, with the constraint list [[]] under ["iid"] and, under
    ["free"], with exactly two entries: the covariance block marked as a
    covariance matrix, and its entry 0 fixed to [1.0]. *)
Theorem constraints_by_cov_structure (E : Env) formula data cs im algorithm
        (s s1 : state E) codes design start :
  _multinomial_processing E formula data cs s = (Ok (codes, design, start), s1) ->
  exists constraints r w,
    multinomial_probit E formula data cs im algorithm s
    = (r, {| world := w;
             calls := calls s1
                      ++ [CalledMaximize start algorithm
                            {| kw_y := codes; kw_x := design;
                               kw_cov_structure := cs;
                               kw_integration_method := im |}
                            constraints] |})
    /\ ((cs = "iid" /\ constraints = [])
        \/ (cs = "free"
            /\ constraints
               = [ {| c_loc := LocBlock "covariance"; c_type := "covariance";
                      c_value := None |};
                   {| c_loc := LocEntry "covariance" 0; c_type := "fixed";
                      c_value := Some 1%Q |} ]
            /\ length constraints = 2%nat)).
Proof.
  intros Hp. rewrite (multinomial_probit_unfold _ _ _ _ im algorithm _ _ _ _ _ Hp).
  unfold call_maximize, logged.
  destruct (estimagic_maximize E _ _ _ _ _ _) as [r w].
  exists (build_constraints cs), r, w. split; [done |].
  destruct (processing_ok_valid _ _ _ _ _ _ _ Hp) as [-> | ->]; [left | right]; done.
Qed.

Lemma constraints_by_cov_structure_witness :
  _multinomial_processing Sample.env "y ~ x" Sample.grades "free" Sample.start
  = (Ok (Runs.grades_codes, Runs.grades_design, Runs.grades_params),
     Runs.grades_state)
  /\ exists constraints r w,
      multinomial_probit Sample.env "y ~ x" Sample.grades "free"
        "gauss_integration" "scipy_lbfgsb" Sample.start
      = (r, {| world := w;
               calls := calls Runs.grades_state
                        ++ [CalledMaximize Runs.grades_params "scipy_lbfgsb"
                              {| kw_y := Runs.grades_codes;
                                 kw_x := Runs.grades_design;
                                 kw_cov_structure := "free";
                                 kw_integration_method := "gauss_integration" |}
                              constraints] |})
      /\ length constraints = 2%nat.
Proof.
  split; [by vm_compute |].
  destruct (constraints_by_cov_structure Sample.env "y ~ x" Sample.grades
              "free" "gauss_integration" "scipy_lbfgsb" Sample.start
              Runs.grades_state Runs.grades_codes Runs.grades_design
              Runs.grades_params)
    as (constraints & r & w & Hrun & Hc); [by vm_compute |].
  exists constraints, r, w. split; [exact Hrun |].
  destruct Hc as [[Hcs _] | (_ & _ & Hlen)]; [discriminate Hcs | exact Hlen].
Defined.

(** ** The logarithm of the probabilities *)

(** The array that is logged is the one the routine returned: the
    clipped copy made by [clip] is not used. *)
Lemma loglikeobs_logs_unclipped (E : Env) params y x cs im (s : state E)
      u_prime cov f probs w :
  cs = "iid" \/ cs = "free" ->
  utilities_and_covariance params y x cs = Ok (u_prime, cov) ->
  integration_methods E im = Some (Function f) ->
  f u_prime cov y (world s) = (Ok probs, w) ->
  _multinomial_probit_loglikeobs E params y x cs im s
  = (Ok (map (np_log E) probs),
     logged E (CalledIntegration im u_prime cov y) w s).
Proof.
  intros Hcs Hprep Hlook Hf.
  rewrite (loglikeobs_unfold E params y x cs im s Hcs), Hprep.
  unfold integrate_and_log. by rewrite Hlook, Hf.
Qed.

Lemma np_log_zero (E : Env) : np_log E 0 = NegInf.
Proof. reflexivity. Qed.

(** A probability that is exactly zero comes out as [-inf]. *)
Lemma zero_probability_not_finite (E : Env) params y x cs im (s : state E)
      u_prime cov f probs w i :
  cs = "iid" \/ cs = "free" ->
  utilities_and_covariance params y x cs = Ok (u_prime, cov) ->
  integration_methods E im = Some (Function f) ->
  f u_prime cov y (world s) = (Ok probs, w) ->
  probs !! i = Some 0%Q ->
  exists obs s',
    _multinomial_probit_loglikeobs E params y x cs im s = (Ok obs, s')
    /\ obs !! i = Some NegInf.
Proof.
  intros Hcs Hprep Hlook Hf Hi.
  eexists _, _. split; [by eapply loglikeobs_logs_unclipped |].
  by rewrite lookup_map, Hi.
Qed.

(** Had the clipped array been the one logged, every entry would be
    finite. *)
Lemma log_of_clipped_is_finite (E : Env) (probs : list Q) :
  Forall (fun v => is_finite v = true)
         (map (np_log E) (np_clip_min probs clip_floor)).
Proof.
  assert (Hpos : (0 < clip_floor)%Q) by reflexivity.
  apply Forall_forall. intros v Hv.
  apply list_elem_of_In, in_map_iff in Hv as [p [<- Hp]].
  apply in_map_iff in Hp as [q [<- _]].
  unfold np_log.
  destruct (Qle_bool clip_floor q) eqn:Hq.
  - apply Qle_bool_iff in Hq.
    destruct (Qle_bool q 0) eqn:Hq0; [| done].
    apply Qle_bool_iff in Hq0.
    destruct (Qlt_not_le _ _ Hpos). by apply Qle_trans with q.
  - destruct (Qle_bool clip_floor 0) eqn:Hq0; [| done].
    apply Qle_bool_iff in Hq0. by destruct (Qlt_not_le _ _ Hpos).
Qed.

(** C1. The routine [mc_integration] of the sample library returns the
    probabilities [1, 0] for the two observations; the second entry of
    the log-likelihood vector is [-inf], not a finite number. *)
Theorem zero_probability_gives_neg_inf :
  _multinomial_probit_loglikeobs Sample.env Sample.binary_params [0; 1]%Z
    Sample.binary_x "iid" "mc_integration" Sample.start
  = (Ok [Finite (0 # 2); NegInf],
     logged Sample.env
       (CalledIntegration "mc_integration" [[1; 0]; [1; 0]]%Q [[2]]%Q [0; 1]%Z)
       1%nat Sample.start)
  /\ Sample.one_draw [[1; 0]; [1; 0]]%Q [[2]]%Q [0; 1]%Z 0%nat
     = (Ok [1; 0]%Q, 1%nat)
  /\ is_finite NegInf = false
  /\ map (np_log Sample.env) (np_clip_min [1; 0]%Q clip_floor)
     <> [Finite (0 # 2); NegInf].
Proof.
  split; [by vm_compute |]. split; [by vm_compute |]. split; [done |].
  intros H. pose proof (log_of_clipped_is_finite Sample.env [1; 0]%Q) as Hfin.
  rewrite H in Hfin. by apply Forall_cons in Hfin as [_ [Hfin _]%Forall_cons].
Qed.

(** ** The coefficient matrix *)

Lemma broadcast_to_length n vals new :
  broadcast_to n vals = Ok new -> length new = n.
Proof.
  unfold broadcast_to.
  destruct (Nat.eqb_spec (length vals) n) as [Hn | _]; [by intros [= <-] |].
  destruct vals as [| v [| v' vals]]; intros [= <-].
  apply length_replicate.
Qed.

Lemma broadcast_to_same n vals :
  length vals = n -> broadcast_to n vals = Ok vals.
Proof. intros <-. unfold broadcast_to. by rewrite Nat.eqb_refl. Qed.

Lemma set_column_preserves (P : list Q -> Prop) b i vals b' :
  (forall row v, P row -> P (<[i := v]> row)) ->
  Forall P b ->
  set_column b i vals = Ok b' ->
  length b' = length b /\ Forall P b'.
Proof.
  intros Hins Hb. unfold set_column.
  destruct (broadcast_to (length b) vals) as [new |] eqn:Hnew; [| done].
  intros [= <-]. apply broadcast_to_length in Hnew. split.
  - by rewrite length_zip_with_l_eq.
  - eapply Forall_zip_with_fst; [exact Hb |].
    apply Forall_forall. intros v _ row Hrow. by apply Hins.
Qed.

Lemma fill_columns_preserves (P : list Q -> Prop) params cols b b' :
  (forall i row v, In i cols -> P row -> P (<[i := v]> row)) ->
  Forall P b ->
  fill_columns params cols b = Ok b' ->
  length b' = length b /\ Forall P b'.
Proof.
  revert b. induction cols as [| i cols IH]; intros b Hins Hb; cbn.
  - by intros [= <-].
  - destruct (series_get params (choice_label i)) as [vals |]; [| done].
    destruct (set_column b i vals) as [b1 |] eqn:Hset; [| done].
    intros Hfill.
    assert (Hi : forall row v, P row -> P (<[i := v]> row)).
    { intros row v. apply Hins. by left. }
    destruct (set_column_preserves P b i vals b1 Hi Hb Hset) as [Hl1 Hb1].
    assert (Hrest : forall j row v, In j cols -> P row -> P (<[j := v]> row)).
    { intros j row v Hj. apply Hins. by right. }
    destruct (IH b1 Hrest Hb1 Hfill) as [Hl Hb'].
    split; [congruence | done].
Qed.

Lemma fill_columns_ext params params' cols b :
  (forall i, In i cols ->
             select params' (choice_label i) = select params (choice_label i)) ->
  fill_columns params' cols b = fill_columns params cols b.
Proof.
  revert b. induction cols as [| i cols IH]; intros b Hsel; cbn; [done |].
  unfold series_get. rewrite (Hsel i) by (by left).
  destruct (select params (choice_label i)) as [| v vals]; [done |].
  destruct (set_column b i (v :: vals)) as [b1 |]; [| done].
  apply IH. intros j Hj. apply Hsel. by right.
Qed.

(** C8. In the coefficient matrix of [n_var] rows and [n_choices]
    columns, the last column (the reference choice) is zero in every
    row, whatever the parameters are; and the matrix is built from the
    blocks [choice_0] ... [choice_(n_choices - 2)] of the labelled vector
    alone: two vectors that agree on these blocks give the same matrix. *)
Theorem reference_column_is_zero (params : Series) (n_var n_choices : nat)
        (bethas : Matrix) :
  (1 <= n_choices)%nat ->
  coefficient_matrix params n_var n_choices = Ok bethas ->
  length bethas = n_var
  /\ Forall (fun row => length row = n_choices
                        /\ row !! (n_choices - 1)%nat = Some 0%Q) bethas
  /\ forall params' : Series,
      (forall i, (i < n_choices - 1)%nat ->
                 select params' (choice_label i) = select params (choice_label i)) ->
      coefficient_matrix params' n_var n_choices = Ok bethas.
Proof.
  intros Hn. unfold coefficient_matrix, np_zeros.
  rewrite np_full_of_nat.
  replace (Z.of_nat n_choices - 1)%Z with (Z.of_nat (n_choices - 1)) by lia.
  rewrite py_range_of_nat. intros Hfill.
  destruct (fill_columns_preserves
              (fun row => length row = n_choices
                          /\ row !! (n_choices - 1)%nat = Some 0%Q)
              params (seq 0 (n_choices - 1))
              (replicate n_var (replicate n_choices 0%Q)) bethas)
    as [Hlen Hrows]; [| | done |].
  - intros i row v Hi [Hl H0]. apply in_seq in Hi.
    rewrite length_insert, list_lookup_insert_ne by lia. done.
  - apply Forall_replicate. rewrite length_replicate.
    split; [done |]. apply lookup_replicate_2. lia.
  - rewrite length_replicate in Hlen. split; [done |]. split; [done |].
    intros params' Hsel. rewrite <- Hfill. apply fill_columns_ext.
    intros i Hi. apply in_seq in Hi. apply Hsel. lia.
Qed.

Lemma reference_column_is_zero_witness :
  (1 <= 3)%nat
  /\ coefficient_matrix Sample.free_params 1 3 = Ok [[1 # 10; 1 # 5; 0]]%Q
  /\ Forall (fun row => length row = 3%nat /\ row !! 2%nat = Some 0%Q)
            [[1 # 10; 1 # 5; 0]]%Q.
Proof.
  split; [lia |]. split; [reflexivity |].
  apply (reference_column_is_zero Sample.free_params 1 3
           [[1 # 10; 1 # 5; 0]]%Q); [lia | reflexivity].
Defined.

(** ** Shapes and entries *)

Lemma square_row d (m : Matrix) i row :
  square d m -> m !! i = Some row -> length row = d.
Proof. intros [_ Hrows] Hi. by eapply (proj1 (Forall_lookup _ _) Hrows). Qed.

Lemma square_entry d (m : Matrix) i j :
  square d m -> (i < d)%nat -> (j < d)%nat -> is_Some (entry m i j).
Proof.
  intros Hsq Hi Hj. unfold entry.
  destruct (m !! i) as [row |] eqn:Hrow.
  - apply lookup_lt_is_Some. by rewrite (square_row d m i row).
  - apply lookup_ge_None in Hrow. destruct Hsq as [Hl _]. lia.
Qed.

Lemma square_insert d (m : Matrix) i row :
  square d m -> length row = d -> square d (<[i := row]> m).
Proof.
  intros [Hl Hrows] Hrow. split; [by rewrite length_insert |].
  by apply Forall_insert.
Qed.

Lemma entry_insert_ne (m : Matrix) k row i j :
  i <> k -> entry (<[k := row]> m) i j = entry m i j.
Proof. intros Hik. unfold entry. by rewrite list_lookup_insert_ne. Qed.

Lemma entry_insert_eq (m : Matrix) k row j :
  (k < length m)%nat -> entry (<[k := row]> m) k j = row !! j.
Proof. intros Hk. unfold entry. by rewrite list_lookup_insert_eq. Qed.

Lemma entry_outside d (m : Matrix) i j :
  square d m -> (d <= i)%nat \/ (d <= j)%nat -> entry m i j = None.
Proof.
  intros Hsq Hout. unfold entry.
  destruct (m !! i) as [row |] eqn:Hrow; [| done].
  pose proof (square_row d m i row Hsq Hrow) as Hl.
  apply lookup_lt_Some in Hrow. destruct Hsq as [Hm _].
  apply lookup_ge_None. lia.
Qed.

Lemma np_zeros_square (d : nat) :
  square d (replicate d (replicate d 0%Q)).
Proof.
  split; [apply length_replicate |].
  apply Forall_replicate, length_replicate.
Qed.

(** ** The mirroring loop *)

Lemma column_from_length (m : Matrix) r j :
  length (column_from m r j) = (length m - r)%nat.
Proof. unfold column_from. by rewrite length_map, length_drop. Qed.

Lemma column_from_lookup d (m : Matrix) r j i :
  square d m -> (j < d)%nat -> (r + i < d)%nat ->
  column_from m r j !! i = entry m (r + i) j.
Proof.
  intros Hsq Hj Hi. unfold column_from, entry.
  rewrite lookup_map, lookup_drop.
  destruct (m !! (r + i)%nat) as [row |] eqn:Hrow; cbn.
  - pose proof (square_row d m _ row Hsq Hrow) as Hl.
    destruct (lookup_lt_is_Some_2 row j) as [v Hv]; [lia |].
    by rewrite Hv.
  - apply lookup_ge_None in Hrow. destruct Hsq as [Hm _]. lia.
Qed.

Lemma mirror_step d (l m : Matrix) k :
  (k < d)%nat -> mirrored d l k m ->
  exists m', set_row_suffix m k (k + 1) (column_from m (k + 1) k) = Ok m'
             /\ mirrored d l (k + 1) m'.
Proof.
  intros Hk (Hsq & Hlow & Hup). unfold set_row_suffix.
  destruct (lookup_lt_is_Some_2 m k) as [row Hrow];
    [destruct Hsq as [-> _]; lia |].
  rewrite Hrow.
  pose proof (square_row d m k row Hsq Hrow) as Hlen.
  assert (Hm : length m = d) by apply Hsq.
  rewrite broadcast_to_same
    by (rewrite column_from_length, length_drop; lia).
  eexists. split; [done |].
  assert (Htake : length (take (k + 1) row) = (k + 1)%nat)
    by (rewrite length_take; lia).
  split; [| split].
  - apply square_insert; [done |].
    rewrite length_app, Htake, column_from_length. lia.
  - intros i j Hji. destruct (decide (i = k)) as [-> | Hik].
    + destruct (decide (k < length m)%nat) as [Hin | Hout]; [| lia].
      rewrite entry_insert_eq by done.
      rewrite lookup_app_l by lia. rewrite lookup_take_lt by lia.
      rewrite <- Hlow by done. unfold entry. by rewrite Hrow.
    + rewrite entry_insert_ne by done. by apply Hlow.
  - intros i j Hi Hij Hj. destruct (decide (i = k)) as [-> | Hik].
    + rewrite entry_insert_eq by lia.
      rewrite lookup_app_r by lia. rewrite Htake.
      rewrite (column_from_lookup d) by (done || lia).
      replace (k + 1 + (j - (k + 1)))%nat with j by lia.
      apply Hlow. lia.
    + rewrite entry_insert_ne by done. apply Hup; lia.
Qed.

Lemma mirror_upper_spec d (l : Matrix) n :
  forall s m, (s + n <= d)%nat -> mirrored d l s m ->
  exists m', mirror_upper (seq s n) m = Ok m' /\ mirrored d l (s + n) m'.
Proof.
  induction n as [| n IH]; intros s m Hsn Hinv; cbn.
  - exists m. by rewrite Nat.add_0_r.
  - destruct (mirror_step d l m s) as (m1 & -> & Hinv1); [lia | done |].
    destruct (IH (S s) m1) as (m' & Hrun & Hinv'); [lia | |].
    + by replace (S s) with (s + 1)%nat by lia.
    + exists m'. split; [done |]. by replace (s + S n)%nat with (S s + n)%nat by lia.
Qed.

Lemma mirrored_start d (l : Matrix) : square d l -> mirrored d l 0 l.
Proof. intros Hsq. split; [done |]. split; [done |]. intros i j Hi. lia. Qed.

Lemma mirrored_symmetric d (l m : Matrix) :
  mirrored d l d m -> forall i j, entry m i j = entry m j i.
Proof.
  intros (Hsq & Hlow & Hup).
  assert (Hlt : forall i j, (i < j)%nat -> entry m i j = entry m j i).
  { intros i j Hij. destruct (decide (j < d)%nat) as [Hj | Hj].
    - rewrite Hup by lia. symmetry. apply Hlow. lia.
    - rewrite !(entry_outside d) by (done || lia). done. }
  intros i j. destruct (Nat.lt_trichotomy i j) as [Hij | [-> | Hij]].
  - by apply Hlt.
  - done.
  - symmetry. by apply Hlt.
Qed.

(** ** The filling loop keeps the shape *)

Lemma set_row_prefix_square d (m : Matrix) i k vals m' :
  square d m -> set_row_prefix m i k vals = Ok m' -> square d m'.
Proof.
  intros Hsq. unfold set_row_prefix.
  destruct (m !! i) as [row |] eqn:Hrow; [| done].
  destruct (broadcast_to _ vals) as [new |] eqn:Hnew; [| done].
  intros [= <-]. apply square_insert; [done |].
  apply broadcast_to_length in Hnew.
  rewrite length_app, Hnew, <- length_app, take_drop.
  by apply (square_row d m i).
Qed.

Lemma fill_lower_square d covariance rows :
  forall a (m m' : Matrix),
    square d m -> fill_lower covariance rows a m = Ok m' -> square d m'.
Proof.
  induction rows as [| i rows IH]; intros a m m' Hsq; cbn.
  - by intros [= <-].
  - destruct (set_row_prefix m i (i + 1) _) as [m1 |] eqn:Hset; [| done].
    apply IH. by eapply set_row_prefix_square.
Qed.

Lemma unpack_covariance_mirrored (covariance : list Q) (d : nat) (cov : Matrix) :
  unpack_covariance covariance (Z.of_nat d) = Ok cov ->
  exists l, fill_lower covariance (seq 0 d) 0 (replicate d (replicate d 0%Q))
            = Ok l
            /\ mirrored d l d cov.
Proof.
  unfold unpack_covariance, np_zeros. rewrite np_full_of_nat, py_range_of_nat.
  destruct (fill_lower _ _ _ _) as [l |] eqn:Hfill; [| done].
  intros Hmirror. exists l. split; [done |].
  pose proof (fill_lower_square d _ _ _ _ _ (np_zeros_square d) Hfill) as Hsq.
  destruct (mirror_upper_spec d l d 0 l) as (m' & Hrun & Hinv);
    [lia | by apply mirrored_start |].
  rewrite Hrun in Hmirror. by injection Hmirror as <-.
Qed.

Lemma identity_plus_ones_square (d : nat) : square d (identity_plus_ones d).
Proof.
  unfold identity_plus_ones. split; [by rewrite length_map, length_seq |].
  apply Forall_forall. intros row Hrow.
  apply list_elem_of_In, in_map_iff in Hrow as [i [<- _]].
  by rewrite length_map, length_seq.
Qed.

(** C5. Whenever the covariance matrix is built, under either structure
    and for every parameter vector, it is an [(n_choices - 1) x
    (n_choices - 1)] array with [M[i][j] = M[j][i]] for all [i] and [j]. *)
Theorem covariance_matrix_symmetric (params : Series) (cs : string)
        (n_choices : nat) (cov : Matrix) :
  covariance_matrix params cs n_choices = Ok cov ->
  square (n_choices - 1) cov /\ forall i j, entry cov i j = entry cov j i.
Proof.
  destruct n_choices as [| d].
  { unfold covariance_matrix, unpack_covariance, np_zeros. cbn.
    destruct (cs =? "iid"); [done |]. by destruct (series_get _ _). }
  replace (S d - 1)%nat with d by lia.
  unfold covariance_matrix. rewrite pred_of_succ.
  destruct (cs =? "iid") eqn:Hcs.
  - apply String.eqb_eq in Hcs as ->.
    rewrite np_eye_of_nat. unfold np_ones. rewrite np_full_of_nat, eye_plus_ones.
    intros [= <-]. split; [apply identity_plus_ones_square |].
    intros i j. rewrite !identity_plus_ones_entry.
    rewrite (Nat.eqb_sym j i). by rewrite (andb_comm (j <? d)%nat).
  - destruct (series_get params "covariance") as [covariance |]; [| done].
    intros Hun.
    destruct (unpack_covariance_mirrored _ _ _ Hun) as (l & _ & Hinv).
    split; [apply Hinv |]. by apply (mirrored_symmetric d l).
Qed.

Lemma covariance_matrix_symmetric_witness :
  (covariance_matrix Sample.free_params "free" 3
   = Ok [[1; 1 # 2]; [1 # 2; 2]]%Q
   /\ entry [[1; 1 # 2]; [1 # 2; 2]]%Q 0 1 = entry [[1; 1 # 2]; [1 # 2; 2]]%Q 1 0)
  /\ (covariance_matrix Sample.free_params "iid" 3 = Ok [[2; 1]; [1; 2]]%Q
      /\ square 2 [[2; 1]; [1; 2]]%Q).
Proof.
  split.
  - split; [reflexivity |].
    apply (covariance_matrix_symmetric Sample.free_params "free" 3).
    reflexivity.
  - split; [reflexivity |].
    apply (covariance_matrix_symmetric Sample.free_params "iid" 3).
    reflexivity.
Defined.

(** ** The filling loop on a full packed vector *)

Lemma offset_closed (d : nat) : offset d = (d * (d + 1) / 2)%nat.
Proof.
  assert (H : (2 * offset d = d * (d + 1))%nat).
  { induction d as [| d IH]; cbn [offset]; [done | nia]. }
  rewrite <- H, Nat.mul_comm. by rewrite Nat.div_mul.
Qed.

Lemma offset_mono (i d : nat) : (i < d)%nat -> (offset i + (i + 1) <= offset d)%nat.
Proof.
  induction 1 as [| d _ IH]; cbn [offset]; lia.
Qed.

Lemma slice_full (v : list Q) a k :
  (a + k <= length v)%nat -> length (slice v a (a + k)) = k.
Proof.
  intros Hv. unfold slice. rewrite length_take, length_drop. lia.
Qed.

Lemma slice_lookup (v : list Q) a k j :
  (j < k)%nat -> slice v a (a + k) !! j = v !! (a + j)%nat.
Proof.
  intros Hj. unfold slice.
  rewrite lookup_take_lt by lia. apply lookup_drop.
Qed.

Lemma fill_step d (v : list Q) (m : Matrix) k :
  (k < d)%nat -> (offset d <= length v)%nat -> filled d v k m ->
  exists m', set_row_prefix m k (k + 1)
               (slice v (offset k) (offset k + (k + 1))) = Ok m'
             /\ filled d v (k + 1) m'.
Proof.
  intros Hk Hv (Hsq & Hlow). unfold set_row_prefix.
  destruct (lookup_lt_is_Some_2 m k) as [row Hrow];
    [destruct Hsq as [-> _]; lia |].
  rewrite Hrow.
  pose proof (square_row d m k row Hsq Hrow) as Hlen.
  pose proof (offset_mono k d Hk) as Hoff.
  assert (Hslice : length (slice v (offset k) (offset k + (k + 1))) = (k + 1)%nat)
    by (apply slice_full; lia).
  rewrite broadcast_to_same by (rewrite length_take, Hslice; lia).
  eexists. split; [done |]. split.
  - apply square_insert; [done |].
    rewrite length_app, Hslice, length_drop. lia.
  - intros i j Hi Hji. destruct (decide (i = k)) as [-> | Hik].
    + rewrite entry_insert_eq by (destruct Hsq as [-> _]; lia).
      rewrite lookup_app_l by lia. apply slice_lookup. lia.
    + rewrite entry_insert_ne by done. apply Hlow; lia.
Qed.

Lemma fill_lower_spec d (v : list Q) n :
  (offset d <= length v)%nat ->
  forall s m, (s + n <= d)%nat -> filled d v s m ->
  exists m', fill_lower v (seq s n) (offset s) m = Ok m'
             /\ filled d v (s + n) m'.
Proof.
  intros Hv. induction n as [| n IH]; intros s m Hsn Hinv; cbn.
  - exists m. by rewrite Nat.add_0_r.
  - destruct (fill_step d v m s) as (m1 & -> & Hinv1); [lia | done | done |].
    destruct (IH (S s) m1) as (m' & Hrun & Hinv'); [lia | |].
    + by replace (S s) with (s + 1)%nat by lia.
    + exists m'. split; [exact Hrun |].
      by replace (s + S n)%nat with (S s + n)%nat by lia.
Qed.

(** ** Reading the lower triangle back *)

Lemma flat_map_keep {A B} (p : A -> bool) (g : A -> B) (l : list A) :
  (forall a, In a l -> p a = true) ->
  flat_map (fun a => if p a then [g a] else []) l = map g l.
Proof.
  induction l as [| a l IH]; intros Hp; cbn; [done |].
  rewrite (Hp a) by (by left). cbn. f_equal. apply IH.
  intros b Hb. apply Hp. by right.
Qed.

Lemma flat_map_skip {A B} (p : A -> bool) (g : A -> B) (l : list A) :
  (forall a, In a l -> p a = false) ->
  flat_map (fun a => if p a then [g a] else []) l = [].
Proof.
  induction l as [| a l IH]; intros Hp; cbn; [done |].
  rewrite (Hp a) by (by left). cbn. apply IH.
  intros b Hb. apply Hp. by right.
Qed.

Lemma lower_row (d i : nat) (g : nat -> Q) :
  (i < d)%nat ->
  flat_map (fun j => if (j <=? i)%nat then [g j] else []) (seq 0 d)
  = map g (seq 0 (i + 1)).
Proof.
  intros Hi. replace d with ((i + 1) + (d - (i + 1)))%nat by lia.
  rewrite seq_app, flat_map_app.
  rewrite flat_map_keep, flat_map_skip.
  - by rewrite app_nil_r.
  - intros j Hj. apply in_seq in Hj. apply Nat.leb_gt. lia.
  - intros j Hj. apply in_seq in Hj. apply Nat.leb_le. lia.
Qed.

Lemma flat_map_ext_in {A B} (f g : A -> list B) (l : list A) :
  (forall a, In a l -> f a = g a) -> flat_map f l = flat_map g l.
Proof.
  induction l as [| a l IH]; intros Hfg; cbn; [done |].
  rewrite (Hfg a) by (by left). f_equal. apply IH.
  intros b Hb. apply Hfg. by right.
Qed.

Lemma packed_rows (v : list Q) (d : nat) :
  flat_map (fun i => take (i + 1) (drop (offset i) v)) (seq 0 d)
  = take (offset d) v.
Proof.
  induction d as [| d IH]; [done |].
  rewrite seq_S, flat_map_app, IH. cbn [flat_map offset].
  by rewrite app_nil_r, Nat.add_0_l, take_take_drop.
Qed.

Lemma lower_triangle_of_packed (d : nat) (v : list Q) (m : Matrix) :
  length v = offset d ->
  (forall i j, (i < d)%nat -> (j <= i)%nat ->
               entry m i j = v !! (offset i + j)%nat) ->
  lower_triangle m (Z.of_nat d) = v.
Proof.
  intros Hv Hlow. unfold lower_triangle. rewrite py_range_of_nat.
  transitivity (take (offset d) v); [| apply take_ge; lia].
  rewrite <- packed_rows. apply flat_map_ext_in.
  intros i Hi. apply in_seq in Hi.
  rewrite lower_row by lia.
  pose proof (offset_mono i d ltac:(lia)) as Hoff.
  apply list_eq. intros j. rewrite lookup_map.
  destruct (decide (j < i + 1)%nat) as [Hj | Hj].
  - rewrite lookup_seq_lt by done. cbn.
    rewrite lookup_take_lt, lookup_drop by done.
    rewrite Hlow by lia.
    destruct (lookup_lt_is_Some_2 v (offset i + j)) as [q Hq]; [lia |].
    by rewrite Hq.
  - rewrite lookup_seq_ge by lia. by rewrite lookup_take_ge by lia.
Qed.

Lemma unpack_covariance_packed (d : nat) (v : list Q) :
  length v = offset d ->
  exists cov, unpack_covariance v (Z.of_nat d) = Ok cov
              /\ square d cov
              /\ lower_triangle cov (Z.of_nat d) = v.
Proof.
  intros Hv.
  destruct (fill_lower_spec d v d ltac:(lia) 0
              (replicate d (replicate d 0%Q)))
    as (l & Hfill & Hsq & Hl); [lia | |].
  { split; [apply np_zeros_square |]. intros i j Hi. lia. }
  destruct (mirror_upper_spec d l d 0 l) as (cov & Hrun & Hcsq & Hlow & _);
    [lia | by apply mirrored_start |].
  exists cov. split; [| split; [done |]].
  - unfold unpack_covariance, np_zeros.
    rewrite np_full_of_nat, py_range_of_nat.
    cbn [offset] in Hfill. by rewrite Hfill.
  - apply lower_triangle_of_packed; [done |].
    intros i j Hi Hji. rewrite Hlow by done. by apply Hl.
Qed.

(** Under either structure the matrix is built: always under ["iid"],
    and under ["free"] when the covariance block holds the
    [d (d + 1) / 2] packed entries of [d >= 1] utility differences. *)
Lemma covariance_matrix_built (params : Series) (cs : string) (d : nat) :
  cs = "iid"
  \/ ((1 <= d)%nat /\ length (select params "covariance") = offset d) ->
  exists cov, covariance_matrix params cs (S d) = Ok cov.
Proof.
  intros Hcase. unfold covariance_matrix. rewrite pred_of_succ.
  destruct (cs =? "iid") eqn:Hcs.
  - rewrite np_eye_of_nat. unfold np_ones. rewrite np_full_of_nat. by eexists.
  - destruct Hcase as [-> | [Hd Hlen]]; [done |].
    unfold series_get.
    destruct (select params "covariance") as [| q v] eqn:Hsel.
    + destruct d; [lia | cbn in Hlen; lia].
    + destruct (unpack_covariance_packed d (q :: v) Hlen) as (cov & -> & _).
      by exists cov.
Qed.

(** C6. For every packed vector of length [d (d + 1) / 2] the matrix is
    rebuilt without failure, and reading its lower triangle row by row
    gives the packed vector back; a single entry ([d = 1], binary choice)
    becomes the [1 x 1] matrix of that entry. *)
Theorem unpack_then_lower_triangle (d : nat) (v : list Q) :
  length v = (d * (d + 1) / 2)%nat ->
  (exists cov, unpack_covariance v (Z.of_nat d) = Ok cov
               /\ square d cov
               /\ lower_triangle cov (Z.of_nat d) = v)
  /\ forall q : Q, unpack_covariance [q] 1 = Ok [[q]]
                   /\ lower_triangle [[q]] 1 = [q].
Proof.
  intros Hv. rewrite <- offset_closed in Hv.
  split; [by apply unpack_covariance_packed | done].
Qed.

Lemma unpack_then_lower_triangle_witness :
  length [1; 1 # 2; 2; 1 # 3; 1 # 4; 3]%Q = (3 * (3 + 1) / 2)%nat
  /\ exists cov, unpack_covariance [1; 1 # 2; 2; 1 # 3; 1 # 4; 3]%Q 3 = Ok cov
                 /\ square 3 cov
                 /\ lower_triangle cov 3 = [1; 1 # 2; 2; 1 # 3; 1 # 4; 3]%Q.
Proof.
  split; [reflexivity |].
  apply (unpack_then_lower_triangle 3 [1; 1 # 2; 2; 1 # 3; 1 # 4; 3]%Q).
  reflexivity.
Defined.

(** ** Re-basing the outcome *)




Lemma astype_int64_range (q : Q) :
  (int64_min <= astype_int64 q <= int64_max)%Z.
Proof.
  unfold astype_int64. cbn zeta.
  destruct (int64_min <=? _)%Z eqn:Hlo; cbn [andb].
  - destruct (_ <=? int64_max)%Z eqn:Hhi.
    + apply Z.leb_le in Hlo, Hhi. done.
    + unfold int64_min, int64_max. lia.
  - unfold int64_min, int64_max. lia.
Qed.











(** Outcome values 0 and [2 ^ 63] become the codes 0 and [- 2 ^ 63]:
    the difference of the two values is outside the range of the
    cast. *)
Lemma wide_outcome_wraps :
  _multinomial_processing Sample.env "y ~ x" Sample.wide "iid" Sample.start
  = (Ok ([0; int64_min]%Z, Runs.wide_design, Runs.wide_params),
     Runs.wide_state)
  /\ ~ within_int64 [0%Q; inject_Z (2 ^ 63)].
Proof.
  split; [by vm_compute |].
  intros Hrange.
  specialize (Hrange (inject_Z (2 ^ 63)) 0%Q).
  assert (Hlt : (inject_Z (2 ^ 63) - 0 < inject_Z (2 ^ 63))%Q).
  { apply Hrange; [right; by left | by left]. }
  vm_compute in Hlt. discriminate Hlt.
Qed.



(** * Further properties of the pipeline *)

(** ** Failures of the likelihood before the dispatch *)

(** X1. Under ["free"], a parameter vector without a covariance block
    makes the likelihood fail with [KeyError: 'covariance'], whatever the
    data and the integration method are; no routine is called. *)
Theorem missing_covariance_block (E : Env) params y x im (s : state E) :
  select params "covariance" = [] ->
  _multinomial_probit_loglikeobs E params y x "free" im s
  = (Err (KeyError "covariance"), s).
Proof.
  intros Hsel.
  rewrite (loglikeobs_unfold E params y x "free" im s) by (by right).
  unfold utilities_and_covariance, covariance_matrix, series_get.
  cbn [String.eqb Ascii.eqb Bool.eqb]. by rewrite Hsel.
Qed.

Lemma missing_covariance_block_witness :
  select Sample.binary_params "covariance" = []
  /\ _multinomial_probit_loglikeobs Sample.env Sample.binary_params [0; 1]%Z
       Sample.binary_x "free" "mc_integration" Sample.start
     = (Err (KeyError "covariance"), Sample.start).
Proof.
  split; [reflexivity |].
  apply (missing_covariance_block Sample.env). reflexivity.
Defined.

(** X2. Without observations there is no category: [n_choices - 1] is
    [-1] and the likelihood fails with numpy's [ValueError] for a
    negative dimension under ["iid"]; under ["free"] the covariance block
    is looked up first, so the failure is the [KeyError] when it is
    missing and the same [ValueError] otherwise. *)
Theorem no_observation_fails (E : Env) params x im (s : state E) :
  _multinomial_probit_loglikeobs E params [] x "iid" im s
  = (Err (ValueError "negative dimensions are not allowed"), s)
  /\ _multinomial_probit_loglikeobs E params [] x "free" im s
     = (Err (match select params "covariance" with
             | [] => KeyError "covariance"
             | _ => ValueError "negative dimensions are not allowed"
             end), s).
Proof.
  rewrite (loglikeobs_unfold E params [] x "iid" im s) by (by left).
  rewrite (loglikeobs_unfold E params [] x "free" im s) by (by right).
  split; [done |].
  unfold utilities_and_covariance, covariance_matrix, series_get.
  cbn [String.eqb Ascii.eqb Bool.eqb].
  by destruct (select params "covariance").
Qed.

(** ** The logarithms and their sum *)

Lemma np_log_positive (E : Env) (p : Q) :
  (0 < p)%Q -> np_log E p = Finite (libm_log E p).
Proof.
  intros Hp. unfold np_log.
  destruct (Qle_bool p 0) eqn:Hle; [| done].
  apply Qle_bool_iff in Hle. by destruct (Qlt_not_le _ _ Hp).
Qed.

Lemma np_log_null (E : Env) (p : Q) : (p == 0)%Q -> np_log E p = NegInf.
Proof.
  intros Hp. unfold np_log.
  assert (Hle : Qle_bool p 0 = true) by (apply Qle_bool_iff; by rewrite Hp).
  assert (Heq : Qeq_bool p 0 = true) by (by apply Qeq_bool_iff).
  by rewrite Hle, Heq.
Qed.

Lemma np_log_nonneg (E : Env) (p : Q) :
  (0 <= p)%Q -> np_log E p = NegInf \/ is_finite (np_log E p) = true.
Proof.
  intros Hp. unfold np_log.
  destruct (Qle_bool p 0) eqn:Hle; [| by right].
  apply Qle_bool_iff in Hle. left.
  assert (Heq : Qeq_bool p 0 = true)
    by (apply Qeq_bool_iff; by apply Qle_antisym).
  by rewrite Heq.
Qed.

Lemma xsum_finite (qs : list Q) (acc : Q) :
  foldl xadd (Finite acc) (map Finite qs) = Finite (foldl Qplus acc qs).
Proof. revert acc. induction qs as [| q qs IH]; intros acc; cbn; [done | apply IH]. Qed.

Lemma xsum_neg_inf (vs : list xfloat) :
  Forall (fun v => v = NegInf \/ is_finite v = true) vs ->
  foldl xadd NegInf vs = NegInf.
Proof.
  induction 1 as [| v vs Hv _ IH]; cbn; [done |].
  destruct Hv as [-> | Hv]; [exact IH |].
  destruct v; try done; exact IH.
Qed.

Lemma xadd_keeps (a b : xfloat) :
  a = NegInf \/ is_finite a = true ->
  b = NegInf \/ is_finite b = true ->
  xadd a b = NegInf \/ is_finite (xadd a b) = true.
Proof.
  intros Ha Hb. destruct a, b; cbn in *;
    destruct Ha as [Ha | Ha], Hb as [Hb | Hb]; try discriminate; auto.
Qed.

Lemma xsum_reaches_neg_inf (vs : list xfloat) (acc : xfloat) :
  Forall (fun v => v = NegInf \/ is_finite v = true) vs ->
  Exists (fun v => v = NegInf) vs ->
  acc = NegInf \/ is_finite acc = true ->
  foldl xadd acc vs = NegInf.
Proof.
  intros Hall Hex. revert acc.
  induction Hex as [v vs -> | v vs Hex IH]; intros acc Hacc;
    apply Forall_cons in Hall as [Hv Hall]; cbn.
  - replace (xadd acc NegInf) with NegInf
      by (destruct Hacc as [-> | Hacc]; [done | by destruct acc]).
    by apply xsum_neg_inf.
  - apply IH; [done |]. by apply xadd_keeps.
Qed.

Lemma loglike_unfold (E : Env) params y x cs im (s : state E) :
  _multinomial_probit_loglike E params y x cs im s
  = match _multinomial_probit_loglikeobs E params y x cs im s with
    | (Ok obs, s') => (Ok (xsum obs), s')
    | (Err e, s') => (Err e, s')
    end.
Proof. reflexivity. Qed.

(** X3. When the routine returns only positive probabilities, the
    likelihood returns one finite logarithm per probability, in the
    routine's order, and their sum, the objective of the optimiser, is
    finite. *)
Theorem positive_probabilities_finite (E : Env) params y x cs im (s : state E)
        u_prime cov f probs w :
  cs = "iid" \/ cs = "free" ->
  utilities_and_covariance params y x cs = Ok (u_prime, cov) ->
  integration_methods E im = Some (Function f) ->
  f u_prime cov y (world s) = (Ok probs, w) ->
  Forall (fun p => (0 < p)%Q) probs ->
  _multinomial_probit_loglikeobs E params y x cs im s
  = (Ok (map (fun p => Finite (libm_log E p)) probs),
     logged E (CalledIntegration im u_prime cov y) w s)
  /\ _multinomial_probit_loglike E params y x cs im s
     = (Ok (Finite (foldl Qplus 0%Q (map (libm_log E) probs))),
        logged E (CalledIntegration im u_prime cov y) w s).
Proof.
  intros Hcs Hprep Hlook Hf Hpos.
  assert (Hobs : _multinomial_probit_loglikeobs E params y x cs im s
                 = (Ok (map (fun p => Finite (libm_log E p)) probs),
                    logged E (CalledIntegration im u_prime cov y) w s)).
  { rewrite (loglikeobs_logs_unclipped E params y x cs im s u_prime cov f probs w)
      by done.
    do 2 f_equal. apply map_ext_in. intros p Hp.
    apply np_log_positive.
    by apply (proj1 (Forall_forall _ _) Hpos), list_elem_of_In. }
  split; [exact Hobs |].
  rewrite loglike_unfold, Hobs. unfold xsum.
  by rewrite <- (map_map (libm_log E) Finite), xsum_finite.
Qed.

Lemma positive_probabilities_finite_witness :
  ("iid" = "iid" \/ "iid" = "free")
  /\ Forall (fun p => (0 < p)%Q) [1 # 2; 1 # 2]%Q
  /\ _multinomial_probit_loglike Sample.env Sample.binary_params [0; 1]%Z
       Sample.binary_x "iid" "gauss_integration" Sample.start
     = (Ok (Finite (foldl Qplus 0%Q
                      (map (libm_log Sample.env) [1 # 2; 1 # 2]%Q))),
        logged Sample.env
          (CalledIntegration "gauss_integration" [[1; 0]; [1; 0]]%Q [[2]]%Q
                             [0; 1]%Z)
          0%nat Sample.start).
Proof.
  assert (Hpos : Forall (fun p => (0 < p)%Q) [1 # 2; 1 # 2]%Q)
    by (repeat constructor).
  split; [by left |]. split; [exact Hpos |].
  apply (positive_probabilities_finite Sample.env Sample.binary_params
           [0; 1]%Z Sample.binary_x "iid" "gauss_integration" Sample.start
           [[1; 0]; [1; 0]]%Q [[2]]%Q Sample.equal_shares [1 # 2; 1 # 2]%Q
           0%nat (or_introl eq_refl));
    [reflexivity | reflexivity | reflexivity | exact Hpos].
Defined.

(** X4. When the routine returns probabilities in [[0, 1]] of which one
    is exactly zero, the total log-likelihood handed to the optimiser is
    [-inf]. *)
Theorem zero_probability_total_is_neg_inf (E : Env) params y x cs im
        (s : state E) u_prime cov f probs w :
  cs = "iid" \/ cs = "free" ->
  utilities_and_covariance params y x cs = Ok (u_prime, cov) ->
  integration_methods E im = Some (Function f) ->
  f u_prime cov y (world s) = (Ok probs, w) ->
  Forall (fun p => (0 <= p)%Q) probs ->
  Exists (fun p => (p == 0)%Q) probs ->
  _multinomial_probit_loglike E params y x cs im s
  = (Ok NegInf, logged E (CalledIntegration im u_prime cov y) w s).
Proof.
  intros Hcs Hprep Hlook Hf Hnn Hzero.
  rewrite loglike_unfold.
  rewrite (loglikeobs_logs_unclipped E params y x cs im s u_prime cov f probs w)
    by done.
  do 2 f_equal. unfold xsum. apply xsum_reaches_neg_inf; [| | by right].
  - apply Forall_forall. intros v Hv.
    apply list_elem_of_In, in_map_iff in Hv as [p [<- Hp]].
    apply np_log_nonneg.
    by apply (proj1 (Forall_forall _ _) Hnn), list_elem_of_In.
  - apply Exists_exists in Hzero as [p [Hp Hp0]].
    apply Exists_exists. exists (np_log E p). split.
    + apply list_elem_of_In, in_map. by apply list_elem_of_In.
    + by apply np_log_null.
Qed.

Lemma zero_probability_total_is_neg_inf_witness :
  ("iid" = "iid" \/ "iid" = "free")
  /\ Forall (fun p => (0 <= p)%Q) [1; 0]%Q
  /\ Exists (fun p => (p == 0)%Q) [1; 0]%Q
  /\ _multinomial_probit_loglike Sample.env Sample.binary_params [0; 1]%Z
       Sample.binary_x "iid" "mc_integration" Sample.start
     = (Ok NegInf,
        logged Sample.env
          (CalledIntegration "mc_integration" [[1; 0]; [1; 0]]%Q [[2]]%Q
                             [0; 1]%Z)
          1%nat Sample.start).
Proof.
  assert (Hnn : Forall (fun p => (0 <= p)%Q) [1; 0]%Q)
    by (repeat constructor; discriminate).
  assert (Hz : Exists (fun p => (p == 0)%Q) [1; 0]%Q)
    by (right; left; reflexivity).
  split; [by left |]. split; [exact Hnn |]. split; [exact Hz |].
  apply (zero_probability_total_is_neg_inf Sample.env Sample.binary_params
           [0; 1]%Z Sample.binary_x "iid" "mc_integration" Sample.start
           [[1; 0]; [1; 0]]%Q [[2]]%Q Sample.one_draw [1; 0]%Q
           1%nat (or_introl eq_refl));
    [reflexivity | reflexivity | reflexivity | exact Hnn | exact Hz].
Defined.

(** ** The columns of the coefficient matrix *)

Lemma shaped_row r c (m : Matrix) k row :
  shaped r c m -> m !! k = Some row -> length row = c.
Proof. intros [_ Hrows] Hk. by eapply (proj1 (Forall_lookup _ _) Hrows). Qed.

Lemma np_zeros_shaped (r c : nat) : shaped r c (replicate r (replicate c 0%Q)).
Proof.
  split; [apply length_replicate |].
  apply Forall_replicate, length_replicate.
Qed.

Lemma set_column_full (b : Matrix) (i : nat) (vals : list Q) :
  length vals = length b ->
  set_column b i vals = Ok (zip_with (fun row v => <[i := v]> row) b vals).
Proof. intros Hl. unfold set_column. by rewrite broadcast_to_same. Qed.

Lemma set_column_entries r c (b : Matrix) (i : nat) (vals : list Q) :
  shaped r c b -> length vals = r -> (i < c)%nat ->
  let b' := zip_with (fun row v => <[i := v]> row) b vals in
  shaped r c b'
  /\ (forall k, entry b' k i = vals !! k)
  /\ (forall k j, j <> i -> entry b' k j = entry b k j).
Proof.
  intros Hb Hvals Hi. cbn zeta.
  assert (Hlen : length b = r) by apply Hb.
  split; [| split].
  - split; [rewrite length_zip_with_l_eq; congruence |].
    eapply Forall_zip_with_fst; [apply Hb |].
    apply Forall_forall. intros v _ row Hrow. by rewrite length_insert.
  - intros k. unfold entry. rewrite lookup_zip_with.
    destruct (b !! k) as [row |] eqn:Hrow; cbn.
    + destruct (vals !! k) as [v |] eqn:Hv; cbn.
      * apply list_lookup_insert_eq.
        by rewrite (shaped_row r c b k row).
      * apply lookup_ge_None in Hv. apply lookup_lt_Some in Hrow. lia.
    + apply lookup_ge_None in Hrow. symmetry. apply lookup_ge_None. lia.
  - intros k j Hji. unfold entry. rewrite lookup_zip_with.
    destruct (b !! k) as [row |] eqn:Hrow; cbn; [| done].
    destruct (vals !! k) as [v |] eqn:Hv; cbn.
    + by apply list_lookup_insert_ne.
    + apply lookup_ge_None in Hv. apply lookup_lt_Some in Hrow. lia.
Qed.

Lemma py_range_pred (n : nat) : py_range (Z.of_nat n - 1) = seq 0 (n - 1).
Proof. unfold py_range. f_equal. lia. Qed.

Lemma fill_columns_app params (l1 l2 : list nat) (b : Matrix) :
  fill_columns params (l1 ++ l2) b
  = (b1 <- fill_columns params l1 b ;; fill_columns params l2 b1).
Proof.
  revert b. induction l1 as [| i l1 IH]; intros b; cbn; [done |].
  destruct (series_get params (choice_label i)) as [vals |]; [| done].
  destruct (set_column b i vals) as [b1 |]; [| done].
  apply IH.
Qed.

Lemma series_get_block params k :
  select params k <> [] -> series_get params k = Ok (select params k).
Proof. unfold series_get. by destruct (select params k). Qed.

Lemma fill_columns_blocks params (n_var n : nat) (k : nat) :
  (1 <= n_var)%nat ->
  forall s (b : Matrix),
    (s + k <= n)%nat ->
    shaped n_var n b ->
    (forall j, (s <= j < s + k)%nat ->
               length (select params (choice_label j)) = n_var) ->
    exists b',
      fill_columns params (seq s k) b = Ok b'
      /\ shaped n_var n b'
      /\ (forall r j, (s <= j < s + k)%nat ->
                      entry b' r j = select params (choice_label j) !! r)
      /\ (forall r j, ~ (s <= j < s + k)%nat -> entry b' r j = entry b r j).
Proof.
  intros Hvar. induction k as [| k IH]; intros s b Hsk Hb Hblocks; cbn.
  - exists b. split; [done |]. split; [done |]. split; [intros; lia | done].
  - assert (Hlen : length (select params (choice_label s)) = n_var)
      by (apply Hblocks; lia).
    rewrite series_get_block by (intros Hnil; rewrite Hnil in Hlen; cbn in Hlen; lia).
    rewrite set_column_full by (destruct Hb as [-> _]; done).
    destruct (set_column_entries n_var n b s (select params (choice_label s)))
      as (Hb1 & Hcol & Hrest); [done | done | lia |].
    destruct (IH (S s) _ ltac:(lia) Hb1) as (b' & Hrun & Hb' & Hin & Hout).
    { intros j Hj. apply Hblocks. lia. }
    exists b'. split; [done |]. split; [done |]. split.
    + intros r j Hj. destruct (decide (j = s)) as [-> | Hjs].
      * rewrite Hout by lia. apply Hcol.
      * apply Hin. lia.
    + intros r j Hj. rewrite Hout by lia. apply Hrest. lia.
Qed.

Lemma coefficient_matrix_blocks (params : Series) (n_var n_choices : nat) :
  (1 <= n_var)%nat ->
  (forall j, (j < n_choices - 1)%nat ->
             length (select params (choice_label j)) = n_var) ->
  exists bethas,
    coefficient_matrix params n_var n_choices = Ok bethas
    /\ shaped n_var n_choices bethas
    /\ forall r j, (j < n_choices - 1)%nat ->
                   entry bethas r j = select params (choice_label j) !! r.
Proof.
  intros Hvar Hblocks. unfold coefficient_matrix, np_zeros.
  rewrite np_full_of_nat.
  rewrite py_range_pred.
  destruct (fill_columns_blocks params n_var n_choices (n_choices - 1) Hvar 0
              (replicate n_var (replicate n_choices 0%Q)))
    as (b' & Hrun & Hb' & Hin & _);
    [lia | apply np_zeros_shaped | intros j Hj; apply Hblocks; lia |].
  exists b'. split; [done |]. split; [done |].
  intros r j Hj. apply Hin. lia.
Qed.

(** X5. When every block [choice_j] of the non-reference choices holds
    one coefficient per variable, the coefficient matrix is built and
    its column [j] is that block, in order: [bethas[r][j]] is the [r]-th
    value labelled [choice_j]. *)
Theorem coefficient_columns_are_blocks (params : Series) (n_var n_choices : nat) :
  (1 <= n_var)%nat ->
  (forall j, (j < n_choices - 1)%nat ->
             length (select params (choice_label j)) = n_var) ->
  exists bethas,
    coefficient_matrix params n_var n_choices = Ok bethas
    /\ shaped n_var n_choices bethas
    /\ forall r j, (j < n_choices - 1)%nat ->
                   entry bethas r j = select params (choice_label j) !! r.
Proof. apply coefficient_matrix_blocks. Qed.

Lemma coefficient_columns_are_blocks_witness :
  (1 <= 1)%nat
  /\ (forall j, (j < 3 - 1)%nat ->
                length (select Sample.free_params (choice_label j)) = 1%nat)
  /\ exists bethas,
      coefficient_matrix Sample.free_params 1 3 = Ok bethas
      /\ entry bethas 0 1 = Some (1 # 5)%Q.
Proof.
  assert (Hblocks : forall j, (j < 3 - 1)%nat ->
                      length (select Sample.free_params (choice_label j)) = 1%nat).
  { intros j Hj. destruct j as [| [| j]]; [reflexivity | reflexivity | lia]. }
  split; [lia |]. split; [exact Hblocks |].
  destruct (coefficient_columns_are_blocks Sample.free_params 1 3
              ltac:(lia) Hblocks) as (bethas & Hrun & _ & Hcols).
  exists bethas. split; [exact Hrun |].
  rewrite Hcols by lia. reflexivity.
Defined.

(** X6. The first block [choice_i] that does not fit stops the
    likelihood: when the covariance is built and the blocks before [i]
    hold one coefficient per variable, a missing block [choice_i] raises
    [KeyError] with that label, and a block whose length is neither the
    number of variables nor 1 raises numpy's broadcast [ValueError]. No
    routine is called. *)
Theorem first_unfit_block_fails (E : Env) params y x cs im (s : state E)
        cov (i : nat) :
  cs = "iid" \/ cs = "free" ->
  covariance_matrix params cs (length (np_unique y)) = Ok cov ->
  (1 <= nd_cols x)%nat ->
  (i < length (np_unique y) - 1)%nat ->
  (forall j, (j < i)%nat ->
             length (select params (choice_label j)) = nd_cols x) ->
  length (select params (choice_label i)) <> nd_cols x ->
  length (select params (choice_label i)) <> 1%nat ->
  _multinomial_probit_loglikeobs E params y x cs im s
  = (Err (match select params (choice_label i) with
          | [] => KeyError (choice_label i)
          | _ => ValueError "could not broadcast input array"
          end), s).
Proof.
  intros Hcs Hcov Hvar Hi Hbefore Hne Hne1.
  rewrite (loglikeobs_unfold E params y x cs im s Hcs).
  unfold utilities_and_covariance. rewrite Hcov.
  set (n := length (np_unique y)) in *.
  unfold coefficient_matrix, np_zeros. rewrite np_full_of_nat.
  rewrite py_range_pred.
  replace (n - 1)%nat with (i + (n - 1 - i))%nat by lia.
  rewrite seq_app, fill_columns_app.
  destruct (fill_columns_blocks params (nd_cols x) n i Hvar 0
              (replicate (nd_cols x) (replicate n 0%Q)))
    as (b1 & -> & Hb1 & _);
    [lia | apply np_zeros_shaped | intros j Hj; apply Hbefore; lia |].
  destruct (n - 1 - i)%nat as [| k] eqn:Hk; [lia |]. cbn.
  unfold series_get.
  destruct (select params (choice_label i)) as [| v vals] eqn:Hsel; [done |].
  unfold set_column, broadcast_to.
  destruct Hb1 as [-> _].
  destruct (Nat.eqb_spec (length (v :: vals)) (nd_cols x)) as [Heq | _];
    [done |].
  destruct vals; [done | done].
Qed.

Lemma first_unfit_block_fails_witness :
  ("iid" = "iid" \/ "iid" = "free")
  /\ _multinomial_probit_loglikeobs Sample.env Sample.binary_params
       [0; 1; 2]%Z Sample.binary_x "iid" "mc_integration" Sample.start
     = (Err (KeyError "choice_1"), Sample.start).
Proof.
  split; [by left |].
  apply (first_unfit_block_fails Sample.env Sample.binary_params [0; 1; 2]%Z
           Sample.binary_x "iid" "mc_integration" Sample.start
           [[2; 1]; [1; 2]]%Q 1 (or_introl eq_refl)).
  - reflexivity.
  - vm_compute. lia.
  - vm_compute. lia.
  - intros j Hj. destruct j; [reflexivity | lia].
  - discriminate.
  - discriminate.
Defined.

(** ** The utilities *)

Lemma zip_with_map_r {A B C D} (f : A -> C -> D) (g : B -> C)
      (l : list A) (k : list B) :
  zip_with (fun a b => f a (g b)) l k = zip_with f l (map g k).
Proof.
  revert k. induction l as [| a l IH]; intros [| b k]; cbn; [done.. |].
  by rewrite IH.
Qed.

Lemma dot_entry (x b : Matrix) (n_cols r j : nat) (xrow : list Q) :
  x !! r = Some xrow -> (j < n_cols)%nat ->
  entry (dot x b n_cols) r j = Some (dot_row xrow b j).
Proof.
  intros Hr Hj. unfold entry, dot.
  rewrite lookup_map, Hr. cbn.
  by rewrite lookup_map, lookup_seq_lt.
Qed.

Lemma column_of_blocks r c (b : Matrix) (j : nat) (block : list Q) :
  shaped r c b -> length block = r ->
  (forall k, entry b k j = block !! k) ->
  map (fun brow => default 0%Q (brow !! j)) b = block.
Proof.
  intros [Hlen _] Hblock Hcol.
  apply list_eq. intros k. rewrite lookup_map.
  specialize (Hcol k). unfold entry in Hcol.
  destruct (b !! k) as [brow |] eqn:Hrow; cbn.
  - rewrite Hcol.
    destruct (lookup_lt_is_Some_2 block k) as [v Hv];
      [apply lookup_lt_Some in Hrow; lia |].
    by rewrite Hv.
  - symmetry. apply lookup_ge_None. apply lookup_ge_None in Hrow. lia.
Qed.

(** X7. With one coefficient per variable in every block, the utility
    of a non-reference choice [j] for observation [r] is the dot product
    of row [r] of [x] with the block [choice_j]. *)
Theorem utilities_are_dot_products (params : Series) (y : list Z) (x : ndarray)
        (cs : string) (u_prime cov : Matrix) :
  utilities_and_covariance params y x cs = Ok (u_prime, cov) ->
  (1 <= nd_cols x)%nat ->
  (forall j, (j < length (np_unique y) - 1)%nat ->
             length (select params (choice_label j)) = nd_cols x) ->
  forall r j xrow,
    nd_rows x !! r = Some xrow ->
    (j < length (np_unique y) - 1)%nat ->
    entry u_prime r j
    = Some (foldr Qplus 0%Q
              (zip_with Qmult xrow (select params (choice_label j)))).
Proof.
  intros Hprep Hvar Hblocks r j xrow Hr Hj.
  destruct (utilities_and_covariance_ok _ _ _ _ _ _ Hprep)
    as (_ & bethas & Hb & ->).
  destruct (coefficient_matrix_blocks params (nd_cols x)
              (length (np_unique y)) Hvar Hblocks)
    as (b' & Hb' & Hshape & Hcols).
  rewrite Hb in Hb'. injection Hb' as <-.
  rewrite (dot_entry _ _ _ r j xrow) by (done || lia).
  unfold dot_row. f_equal.
  rewrite (zip_with_map_r Qmult (fun brow => default 0%Q (brow !! j))).
  f_equal. f_equal.
  apply (column_of_blocks (nd_cols x) (length (np_unique y))); [done | |].
  - by apply Hblocks.
  - intros k. by apply Hcols.
Qed.

Lemma utilities_are_dot_products_witness :
  utilities_and_covariance Sample.free_params [0; 1; 2]%Z Sample.binary_x "free"
  = Ok ([[1 # 10; 1 # 5; 0]; [1 # 10; 1 # 5; 0]]%Q,
        [[1; 1 # 2]; [1 # 2; 2]]%Q)
  /\ entry [[1 # 10; 1 # 5; 0]; [1 # 10; 1 # 5; 0]]%Q 1 1
     = Some (foldr Qplus 0%Q (zip_with Qmult [1%Q] [(1 # 5)%Q])).
Proof.
  split; [reflexivity |].
  apply (utilities_are_dot_products Sample.free_params [0; 1; 2]%Z
           Sample.binary_x "free" _ [[1; 1 # 2]; [1 # 2; 2]]%Q).
  - reflexivity.
  - vm_compute. lia.
  - intros j Hj. vm_compute in Hj.
    destruct j as [| [| j]]; [reflexivity | reflexivity | lia].
  - reflexivity.
  - vm_compute. lia.
Defined.

Lemma dot_row_null (xrow : list Q) (b : Matrix) (j : nat) :
  Forall (fun brow => brow !! j = Some 0%Q) b ->
  (dot_row xrow b j == 0)%Q.
Proof.
  intros Hb. unfold dot_row. revert xrow.
  induction Hb as [| brow b Hrow _ IH]; intros [| xk xrow]; cbn; try done.
  rewrite Hrow, IH. cbn. ring.
Qed.

Lemma coefficient_matrix_last_column params n_var n_choices (bethas : Matrix) :
  (1 <= n_choices)%nat ->
  coefficient_matrix params n_var n_choices = Ok bethas ->
  Forall (fun row => row !! (n_choices - 1)%nat = Some 0%Q) bethas.
Proof.
  intros Hn. unfold coefficient_matrix, np_zeros.
  rewrite np_full_of_nat, py_range_pred. intros Hfill.
  destruct (fill_columns_preserves
              (fun row => length row = n_choices
                          /\ row !! (n_choices - 1)%nat = Some 0%Q)
              params (seq 0 (n_choices - 1))
              (replicate n_var (replicate n_choices 0%Q)) bethas)
    as [_ Hrows]; [| | done |].
  - intros i row v Hi [Hl H0]. apply in_seq in Hi.
    rewrite length_insert, list_lookup_insert_ne by lia. done.
  - apply Forall_replicate. rewrite length_replicate.
    split; [done |]. apply lookup_replicate_2. lia.
  - eapply Forall_impl; [exact Hrows |]. by intros row [_ H0].
Qed.

(** X8. Whenever the utilities are computed, the utility of the
    reference choice (the last column of [u_prime]) is zero for every
    observation, whatever the parameters and the covariates are. *)
Theorem reference_utility_is_zero (params : Series) (y : list Z) (x : ndarray)
        (cs : string) (u_prime cov : Matrix) :
  utilities_and_covariance params y x cs = Ok (u_prime, cov) ->
  (1 <= length (np_unique y))%nat
  /\ Forall (fun row => exists q, row !! (length (np_unique y) - 1)%nat = Some q
                                  /\ (q == 0)%Q) u_prime.
Proof.
  intros Hprep.
  destruct (utilities_and_covariance_ok _ _ _ _ _ _ Hprep)
    as (Hcov & bethas & Hb & ->).
  set (n := length (np_unique y)) in *.
  assert (Hn : (1 <= n)%nat).
  { destruct n as [| n]; [| lia]. exfalso. revert Hcov.
    unfold covariance_matrix, unpack_covariance, np_zeros. cbn.
    destruct (cs =? "iid"); [done |]. by destruct (series_get _ _). }
  split; [done |].
  pose proof (coefficient_matrix_last_column _ _ _ _ Hn Hb) as Hlast.
  apply Forall_forall. intros row Hrow.
  unfold dot in Hrow. apply list_elem_of_In, in_map_iff in Hrow as [xrow [<- _]].
  exists (dot_row xrow bethas (n - 1)). split.
  - rewrite lookup_map, lookup_seq_lt by lia. done.
  - by apply dot_row_null.
Qed.

Lemma reference_utility_is_zero_witness :
  utilities_and_covariance Sample.free_params [0; 1; 2]%Z Sample.binary_x "free"
  = Ok ([[1 # 10; 1 # 5; 0]; [1 # 10; 1 # 5; 0]]%Q,
        [[1; 1 # 2]; [1 # 2; 2]]%Q)
  /\ (1 <= length (np_unique [0; 1; 2]%Z))%nat.
Proof.
  split; [reflexivity |].
  apply (reference_utility_is_zero Sample.free_params [0; 1; 2]%Z
           Sample.binary_x "free"
           [[1 # 10; 1 # 5; 0]; [1 # 10; 1 # 5; 0]]%Q
           [[1; 1 # 2]; [1 # 2; 2]]%Q).
  reflexivity.
Defined.

(** ** Packing and unpacking *)

Lemma matrix_ext d (a b : Matrix) :
  square d a -> square d b ->
  (forall i j, (i < d)%nat -> (j < d)%nat -> entry a i j = entry b i j) ->
  a = b.
Proof.
  intros Ha Hb Hent.
  apply (list_eq_same_length _ _ d); [apply Hb | apply Ha |].
  intros i ra rb Hi Hra Hrb.
  apply (list_eq_same_length _ _ d);
    [by apply (square_row d b i) | by apply (square_row d a i) |].
  intros j qa qb Hj Hqa Hqb.
  specialize (Hent i j Hi Hj). unfold entry in Hent.
  rewrite Hra, Hrb in Hent. congruence.
Qed.

Lemma unpack_covariance_entries (d : nat) (v : list Q) :
  (offset d <= length v)%nat ->
  exists cov,
    unpack_covariance v (Z.of_nat d) = Ok cov
    /\ square d cov
    /\ (forall i j, (i < d)%nat -> (j <= i)%nat ->
                    entry cov i j = v !! (offset i + j)%nat)
    /\ (forall i j, entry cov i j = entry cov j i).
Proof.
  intros Hv.
  destruct (fill_lower_spec d v d Hv 0 (replicate d (replicate d 0%Q)))
    as (l & Hfill & Hsq & Hl); [lia | |].
  { split; [apply np_zeros_square |]. intros i j Hi. lia. }
  destruct (mirror_upper_spec d l d 0 l) as (cov & Hrun & Hinv);
    [lia | by apply mirrored_start |].
  exists cov. split; [| split; [apply Hinv | split]].
  - unfold unpack_covariance, np_zeros.
    rewrite np_full_of_nat, py_range_of_nat.
    cbn [offset] in Hfill. by rewrite Hfill.
  - intros i j Hi Hji. destruct Hinv as (_ & Hlow & _).
    rewrite Hlow by done. by apply Hl.
  - by apply (mirrored_symmetric d l).
Qed.

Lemma rows_packed (g : nat -> list Q) (d : nat) :
  (forall i, length (g i) = (i + 1)%nat) ->
  length (flat_map g (seq 0 d)) = offset d
  /\ forall i j, (i < d)%nat -> (j <= i)%nat ->
                 flat_map g (seq 0 d) !! (offset i + j)%nat = g i !! j.
Proof.
  intros Hg. induction d as [| d [IHlen IHget]].
  - split; [done |]. intros i j Hi. lia.
  - rewrite seq_S, flat_map_app. cbn [flat_map]. rewrite app_nil_r. split.
    + rewrite length_app, IHlen, Hg. by cbn [offset].
    + intros i j Hi Hji. destruct (decide (i = d)) as [-> | Hid].
      * rewrite lookup_app_r by lia. rewrite IHlen. f_equal. lia.
      * pose proof (offset_mono i d ltac:(lia)).
        rewrite lookup_app_l by lia. apply IHget; lia.
Qed.

Lemma lower_triangle_rows (m : Matrix) (d : nat) :
  lower_triangle m (Z.of_nat d)
  = flat_map (fun i => map (fun j => default 0%Q (entry m i j)) (seq 0 (i + 1)))
             (seq 0 d).
Proof.
  unfold lower_triangle. rewrite py_range_of_nat.
  apply flat_map_ext_in. intros i Hi. apply in_seq in Hi.
  apply lower_row. lia.
Qed.

Lemma lower_triangle_entries (m : Matrix) (d : nat) :
  square d m ->
  length (lower_triangle m (Z.of_nat d)) = offset d
  /\ forall i j, (i < d)%nat -> (j <= i)%nat ->
                 lower_triangle m (Z.of_nat d) !! (offset i + j)%nat
                 = entry m i j.
Proof.
  intros Hsq. rewrite lower_triangle_rows.
  destruct (rows_packed
              (fun i => map (fun j => default 0%Q (entry m i j)) (seq 0 (i + 1))) d)
    as [Hlen Hget]; [intros i; by rewrite length_map, length_seq |].
  split; [done |]. intros i j Hi Hji. rewrite Hget by done.
  rewrite lookup_map, lookup_seq_lt by lia. cbn.
  destruct (square_entry d m i j Hsq Hi ltac:(lia)) as [q Hq].
  by rewrite Hq.
Qed.

Lemma unpack_of_lower_triangle (d : nat) (m : Matrix) :
  square d m ->
  (forall i j, entry m i j = entry m j i) ->
  unpack_covariance (lower_triangle m (Z.of_nat d)) (Z.of_nat d) = Ok m.
Proof.
  intros Hsq Hsym.
  destruct (lower_triangle_entries m d Hsq) as [Hlen Hget].
  destruct (unpack_covariance_entries d (lower_triangle m (Z.of_nat d)))
    as (cov & Hrun & Hcsq & Hlow & Hcsym); [lia |].
  rewrite Hrun. f_equal. apply (matrix_ext d); [done | done |].
  intros i j Hi Hj. destruct (decide (j <= i)%nat) as [Hji | Hji].
  - rewrite Hlow, Hget by done. done.
  - rewrite Hcsym, (Hsym i j). rewrite Hlow, Hget by lia. done.
Qed.

(** X9. Packing is inverted by unpacking on symmetric matrices: for
    every symmetric [d x d] matrix, the lower triangle read row by row
    (lines 65-69) and handed to the two loops of the likelihood (lines
    142-151) gives the matrix back. *)
Theorem pack_then_unpack_symmetric (d : nat) (m : Matrix) :
  square d m ->
  (forall i j, entry m i j = entry m j i) ->
  unpack_covariance (lower_triangle m (Z.of_nat d)) (Z.of_nat d) = Ok m.
Proof. apply unpack_of_lower_triangle. Qed.

Lemma pack_then_unpack_symmetric_witness :
  square 2 [[1; 1 # 2]; [1 # 2; 2]]%Q
  /\ unpack_covariance (lower_triangle [[1; 1 # 2]; [1 # 2; 2]]%Q 2) 2
     = Ok [[1; 1 # 2]; [1 # 2; 2]]%Q.
Proof.
  assert (Hsq : square 2 [[1; 1 # 2]; [1 # 2; 2]]%Q)
    by (split; [reflexivity | repeat constructor]).
  split; [exact Hsq |].
  apply (pack_then_unpack_symmetric 2 [[1; 1 # 2]; [1 # 2; 2]]%Q Hsq).
  intros i j.
  destruct i as [| [| i]], j as [| [| j]]; reflexivity.
Defined.

(** X10. The two loops read the first [d (d + 1) / 2] packed entries
    only: a longer vector is accepted and gives the matrix of its first
    [d (d + 1) / 2] entries. *)
Theorem surplus_entries_ignored (d : nat) (v : list Q) :
  (d * (d + 1) / 2 <= length v)%nat ->
  exists cov,
    unpack_covariance v (Z.of_nat d) = Ok cov
    /\ unpack_covariance (take (d * (d + 1) / 2) v) (Z.of_nat d) = Ok cov.
Proof.
  rewrite <- offset_closed. intros Hv.
  destruct (unpack_covariance_entries d v Hv)
    as (cov & Hrun & Hsq & Hlow & Hsym).
  destruct (unpack_covariance_entries d (take (offset d) v))
    as (cov' & Hrun' & Hsq' & Hlow' & Hsym');
    [rewrite length_take; lia |].
  exists cov. split; [done |]. rewrite Hrun'. f_equal.
  assert (Hsame : forall i j, (i < d)%nat -> (j <= i)%nat ->
                              entry cov' i j = entry cov i j).
  { intros i j Hi Hji. rewrite Hlow, Hlow' by done.
    pose proof (offset_mono i d Hi). apply lookup_take_lt. lia. }
  apply (matrix_ext d); [done | done |].
  intros i j Hi Hj. destruct (decide (j <= i)%nat) as [Hji | Hji].
  - by apply Hsame.
  - rewrite Hsym', Hsym. apply Hsame; lia.
Qed.

Lemma surplus_entries_ignored_witness :
  (2 * (2 + 1) / 2 <= length [1; 1 # 2; 2; 7; 8]%Q)%nat
  /\ exists cov,
      unpack_covariance [1; 1 # 2; 2; 7; 8]%Q 2 = Ok cov
      /\ unpack_covariance (take (2 * (2 + 1) / 2) [1; 1 # 2; 2; 7; 8]%Q) 2
         = Ok cov.
Proof.
  assert (Hlen : (2 * (2 + 1) / 2 <= length [1; 1 # 2; 2; 7; 8]%Q)%nat)
    by (vm_compute; lia).
  split; [exact Hlen |].
  exact (surplus_entries_ignored 2 [1; 1 # 2; 2; 7; 8]%Q Hlen).
Defined.

(** ** Packed vectors that are too short *)

Lemma fill_row_full d (v : list Q) (m : Matrix) k :
  (k < d)%nat -> (offset k + (k + 1) <= length v)%nat -> filled d v k m ->
  exists m', set_row_prefix m k (k + 1)
               (slice v (offset k) (offset k + (k + 1))) = Ok m'
             /\ filled d v (k + 1) m'.
Proof.
  intros Hk Hv (Hsq & Hlow). unfold set_row_prefix.
  destruct (lookup_lt_is_Some_2 m k) as [row Hrow];
    [destruct Hsq as [-> _]; lia |].
  rewrite Hrow.
  pose proof (square_row d m k row Hsq Hrow) as Hlen.
  assert (Hslice : length (slice v (offset k) (offset k + (k + 1))) = (k + 1)%nat)
    by (apply slice_full; lia).
  rewrite broadcast_to_same by (rewrite length_take, Hslice; lia).
  eexists. split; [done |]. split.
  - apply square_insert; [done |].
    rewrite length_app, Hslice, length_drop. lia.
  - intros i j Hi Hji. destruct (decide (i = k)) as [-> | Hik].
    + rewrite entry_insert_eq by (destruct Hsq as [-> _]; lia).
      rewrite lookup_app_l by lia. apply slice_lookup. lia.
    + rewrite entry_insert_ne by done. apply Hlow; lia.
Qed.

Lemma fill_lower_rows d (v : list Q) n :
  forall s m, (s + n <= d)%nat -> (offset (s + n) <= length v)%nat ->
              filled d v s m ->
  exists m', fill_lower v (seq s n) (offset s) m = Ok m'
             /\ filled d v (s + n) m'.
Proof.
  induction n as [| n IH]; intros s m Hsn Hv Hinv; cbn.
  - exists m. by rewrite Nat.add_0_r.
  - replace (s + S n)%nat with (S s + n)%nat in * by lia.
    assert (Hs : (offset s + (s + 1) <= length v)%nat).
    { assert (offset (S s) <= offset (S s + n))%nat; [| cbn [offset] in *; lia].
      clear. induction n as [| n IH]; [by rewrite Nat.add_0_r |].
      replace (S s + S n)%nat with (S (S s + n)) by lia.
      cbn [offset] in *. lia. }
    destruct (fill_row_full d v m s) as (m1 & -> & Hinv1); [lia | done | done |].
    destruct (IH (S s) m1) as (m' & Hrun & Hinv'); [lia | done | |].
    + by replace (S s) with (s + 1)%nat by lia.
    + by exists m'.
Qed.

Lemma fill_lower_app (v : list Q) (n1 n2 : nat) :
  forall s m,
    fill_lower v (seq s (n1 + n2)) (offset s) m
    = (m1 <- fill_lower v (seq s n1) (offset s) m ;;
       fill_lower v (seq (s + n1) n2) (offset (s + n1)) m1).
Proof.
  induction n1 as [| n1 IH]; intros s m; cbn.
  - by rewrite Nat.add_0_r.
  - destruct (set_row_prefix m s (s + 1) _) as [m1 |]; [| done].
    replace (s + S n1)%nat with (S s + n1)%nat by lia.
    apply (IH (S s) m1).
Qed.

Lemma slice_short (v : list Q) a k :
  length (slice v a (a + k)) = Nat.min k (length v - a).
Proof. unfold slice. rewrite length_take, length_drop. f_equal. lia. Qed.

Lemma fill_row_rejected d (v : list Q) (m : Matrix) (k : nat) :
  square d m -> (k < d)%nat ->
  (length v < offset k + (k + 1))%nat ->
  length v <> (offset k + 1)%nat ->
  set_row_prefix m k (k + 1) (slice v (offset k) (offset k + (k + 1)))
  = Err could_not_broadcast.
Proof.
  intros Hsq Hk Hshort Hone. unfold set_row_prefix.
  destruct (lookup_lt_is_Some_2 m k) as [row Hrow];
    [destruct Hsq as [-> _]; lia |].
  rewrite Hrow.
  pose proof (square_row d m k row Hsq Hrow) as Hlen.
  pose proof (slice_short v (offset k) (k + 1)) as Hslice.
  unfold broadcast_to. rewrite length_take.
  destruct (Nat.eqb_spec (length (slice v (offset k) (offset k + (k + 1))))
                         (Nat.min (k + 1) (length row))) as [Heq | _];
    [lia |].
  destruct (slice v (offset k) (offset k + (k + 1))) as [| x [| x' vals]];
    [done | cbn in Hslice; lia | done].
Qed.

Lemma fill_row_broadcast d (v : list Q) (m : Matrix) (k : nat) :
  filled d v k m -> (k < d)%nat ->
  length v = (offset k + 1)%nat ->
  exists x m',
    v !! offset k = Some x
    /\ set_row_prefix m k (k + 1) (slice v (offset k) (offset k + (k + 1)))
       = Ok m'
    /\ square d m'
    /\ (forall j, (j <= k)%nat -> entry m' k j = Some x)
    /\ (forall i j, (i < k)%nat -> (j <= i)%nat ->
                    entry m' i j = v !! (offset i + j)%nat).
Proof.
  intros [Hsq Hlow] Hk Hv. unfold set_row_prefix.
  destruct (lookup_lt_is_Some_2 m k) as [row Hrow];
    [destruct Hsq as [-> _]; lia |].
  rewrite Hrow.
  pose proof (square_row d m k row Hsq Hrow) as Hlen.
  destruct (lookup_lt_is_Some_2 v (offset k)) as [x Hx]; [lia |].
  assert (Hslice : slice v (offset k) (offset k + (k + 1)) = [x]).
  { unfold slice. replace (offset k + (k + 1) - offset k)%nat with (S k) by lia.
    assert (Hd : drop (offset k) v = [x]).
    { apply list_eq. intros [| i]; rewrite lookup_drop.
      - by rewrite Nat.add_0_r.
      - cbn. apply lookup_ge_None. lia. }
    rewrite Hd. cbn. by rewrite take_nil. }
  rewrite Hslice. unfold broadcast_to. rewrite length_take.
  replace (Nat.min (k + 1) (length row)) with (k + 1)%nat by lia.
  exists x.
  destruct (Nat.eqb_spec (length [x]) (k + 1)) as [Heq | Hne].
  - cbn in Heq. assert (k = 0)%nat as -> by lia.
    eexists. split; [done |]. split; [done |]. split; [| split].
    + apply square_insert; [done |]. cbn. rewrite length_drop. lia.
    + intros j Hj. assert (j = 0)%nat as -> by lia.
      rewrite entry_insert_eq by (destruct Hsq as [-> _]; lia). done.
    + intros i j Hi. lia.
  - eexists. split; [done |]. split; [done |]. split; [| split].
    + apply square_insert; [done |].
      rewrite length_app, length_replicate, length_drop. lia.
    + intros j Hj.
      rewrite entry_insert_eq by (destruct Hsq as [-> _]; lia).
      rewrite lookup_app_l by (rewrite length_replicate; lia).
      apply lookup_replicate_2. lia.
    + intros i j Hi Hji. rewrite entry_insert_ne by lia. by apply Hlow.
Qed.

Lemma first_short_row (len d : nat) :
  (len < offset d)%nat ->
  exists i, (i < d)%nat /\ (offset i <= len)%nat
            /\ (len < offset i + (i + 1))%nat.
Proof.
  induction d as [| d IH]; cbn [offset]; intros Hlen; [lia |].
  destruct (decide (len < offset d)%nat) as [Hlt | Hge].
  - destruct (IH Hlt) as (i & Hi & Hlo & Hhi). exists i. lia.
  - exists d. lia.
Qed.

Lemma filled_start d (v : list Q) :
  filled d v 0 (replicate d (replicate d 0%Q)).
Proof. split; [apply np_zeros_square |]. intros i j Hi. lia. Qed.

Lemma unpack_covariance_fill_err (v : list Q) (d : nat) e :
  fill_lower v (seq 0 d) 0 (replicate d (replicate d 0%Q)) = Err e ->
  unpack_covariance v (Z.of_nat d) = Err e.
Proof.
  intros Hfill. unfold unpack_covariance, np_zeros.
  by rewrite np_full_of_nat, py_range_of_nat, Hfill.
Qed.

(** X11. A packed vector shorter than [d (d + 1) / 2] is rejected with
    numpy's broadcast [ValueError], except when it stops exactly one
    entry into the last row of a matrix of two or more rows. *)
Theorem short_packed_vector_rejected (d : nat) (v : list Q) :
  (length v < d * (d + 1) / 2)%nat ->
  ~ ((2 <= d)%nat /\ length v = ((d - 1) * (d - 1 + 1) / 2 + 1)%nat) ->
  unpack_covariance v (Z.of_nat d)
  = Err (ValueError "could not broadcast input array").
Proof.
  rewrite <- !offset_closed. intros Hshort Hnot.
  apply unpack_covariance_fill_err.
  destruct (first_short_row (length v) d Hshort) as (i & Hi & Hlo & Hhi).
  replace d with (i + (d - i))%nat at 1 by lia.
  rewrite (fill_lower_app v i (d - i) 0).
  destruct (fill_lower_rows d v i 0 (replicate d (replicate d 0%Q)))
    as (m1 & Hrun & Hm1); [lia | done | apply filled_start |].
  cbn [offset] in Hrun. cbn [offset]. rewrite Hrun. cbn [Nat.add].
  destruct (d - i)%nat as [| k] eqn:Hk; [lia |]. cbn [seq fill_lower].
  destruct (decide (length v = offset i + 1)%nat) as [Hone | Hone].
  - destruct (fill_row_broadcast d v m1 i Hm1 Hi Hone)
      as (x & m2 & _ & -> & Hsq2 & _).
    destruct k as [| k].
    { destruct Hnot. assert (d - 1 = i)%nat as -> by lia. split; lia. }
    cbn [seq fill_lower].
    replace (offset i + (i + 1))%nat with (offset (S i)) by (cbn [offset]; lia).
    rewrite (fill_row_rejected d v m2 (S i)); [done | done | lia | | ];
      cbn [offset]; lia.
  - by rewrite (fill_row_rejected d v m1 i) by (done || apply Hm1).
Qed.

Lemma short_packed_vector_rejected_witness :
  (length [1; 1 # 2]%Q < 3 * (3 + 1) / 2)%nat
  /\ ~ ((2 <= 3)%nat /\ length [1; 1 # 2]%Q = ((3 - 1) * (3 - 1 + 1) / 2 + 1)%nat)
  /\ unpack_covariance [1; 1 # 2]%Q 3
     = Err (ValueError "could not broadcast input array").
Proof.
  assert (H1 : (length [1; 1 # 2]%Q < 3 * (3 + 1) / 2)%nat) by (vm_compute; lia).
  assert (H2 : ~ ((2 <= 3)%nat
                  /\ length [1; 1 # 2]%Q = ((3 - 1) * (3 - 1 + 1) / 2 + 1)%nat))
    by (vm_compute; intros [_ H]; discriminate H).
  split; [exact H1 |]. split; [exact H2 |].
  exact (short_packed_vector_rejected 3 [1; 1 # 2]%Q H1 H2).
Defined.

(** X12. A packed vector that stops one entry into the last row is not
    rejected: with [d >= 2] rows and [(d - 1) d / 2 + 1] entries, numpy
    broadcasts the last entry over the whole last row, the mirroring
    copies it into the last column, and the rows above are filled as
    from a full vector. *)
Theorem one_entry_last_row_is_broadcast (d : nat) (v : list Q) :
  (2 <= d)%nat ->
  length v = ((d - 1) * (d - 1 + 1) / 2 + 1)%nat ->
  exists cov x,
    unpack_covariance v (Z.of_nat d) = Ok cov
    /\ last v = Some x
    /\ square d cov
    /\ (forall j, (j < d)%nat ->
                  entry cov (d - 1) j = Some x /\ entry cov j (d - 1) = Some x)
    /\ (forall i j, (i < d - 1)%nat -> (j <= i)%nat ->
                    entry cov i j = v !! (offset i + j)%nat).
Proof.
  rewrite <- offset_closed. intros Hd Hv.
  destruct (fill_lower_rows d v (d - 1) 0 (replicate d (replicate d 0%Q)))
    as (m1 & Hrun & Hm1); [lia | cbn [Nat.add]; lia | apply filled_start |].
  cbn [offset Nat.add] in Hrun, Hm1.
  destruct (fill_row_broadcast d v m1 (d - 1) Hm1 ltac:(lia) Hv)
    as (x & m2 & Hx & Hrow & Hsq2 & Hlast & Hrest).
  destruct (mirror_upper_spec d m2 d 0 m2) as (cov & Hmirror & Hinv);
    [lia | by apply mirrored_start |].
  pose proof (mirrored_symmetric d m2 cov Hinv) as Hsym.
  destruct Hinv as (Hsq & Hlow & _).
  exists cov, x. split; [| split; [| split; [done |]]].
  - unfold unpack_covariance, np_zeros.
    rewrite np_full_of_nat, py_range_of_nat.
    pose proof (fill_lower_app v (d - 1) 1 0
                  (replicate d (replicate d 0%Q))) as Happ.
    cbn [offset Nat.add] in Happ.
    replace (d - 1 + 1)%nat with d in Happ by lia.
    rewrite Happ, Hrun. cbn [seq fill_lower]. by rewrite Hrow.
  - rewrite last_lookup, Hv. by replace (pred (offset (d - 1) + 1)) with (offset (d - 1)) by lia.
  - split.
    + intros j Hj.
      assert (Hrowx : entry cov (d - 1) j = Some x)
        by (rewrite Hlow by lia; apply Hlast; lia).
      split; [done | by rewrite Hsym].
    + intros i j Hi Hji. rewrite Hlow by done. by apply Hrest.
Qed.

Lemma one_entry_last_row_is_broadcast_witness :
  (2 <= 3)%nat
  /\ length [1; 2; 3; 4]%Q = ((3 - 1) * (3 - 1 + 1) / 2 + 1)%nat
  /\ unpack_covariance [1; 2; 3; 4]%Q 3 = Ok [[1; 2; 4]; [2; 3; 4]; [4; 4; 4]]%Q
  /\ exists cov x,
      unpack_covariance [1; 2; 3; 4]%Q 3 = Ok cov
      /\ last [1; 2; 3; 4]%Q = Some x
      /\ square 3 cov.
Proof.
  assert (H1 : (2 <= 3)%nat) by lia.
  assert (H2 : length [1; 2; 3; 4]%Q = ((3 - 1) * (3 - 1 + 1) / 2 + 1)%nat)
    by reflexivity.
  split; [exact H1 |]. split; [exact H2 |]. split; [reflexivity |].
  destruct (one_entry_last_row_is_broadcast 3 [1; 2; 3; 4]%Q H1 H2)
    as (cov & x & Hrun & Hx & Hsq & _).
  by exists cov, x.
Defined.

(** ** What data preparation returns *)

Lemma samples_length (E : Env) (n : nat) (w : World E) :
  length (samples E n w).1 = n.
Proof.
  revert w. induction n as [| n IH]; intros w; cbn; [done |].
  destruct (random_sample E w) as [v w1].
  specialize (IH w1). destruct (samples E n w1) as [vs w2]. cbn in *. lia.
Qed.

Lemma pd_Series_ok (data : list Q) (index : list (string * key)) p :
  pd_Series data index = Ok p ->
  length data = length index /\ p = zip index data /\ index <> [].
Proof.
  unfold pd_Series. destruct index as [| l index]; [done |].
  destruct (Nat.eqb_spec (length data) (length (l :: index))) as [Hl | _];
    [| done].
  by intros [= <-].
Qed.

Lemma processing_start (E : Env) formula data cs (s s' : state E)
      codes design start :
  _multinomial_processing E formula data cs s = (Ok (codes, design, start), s') ->
  exists dm1 w1 dm w2,
    patsy_dmatrices E formula data (world s) = (Ok dm1, w1)
    /\ patsy_dmatrices E formula (dropna (pd_concat dm1)) w1 = (Ok dm, w2)
    /\ (0 <= Z.of_nat (length (dm_x dm)) * (Z.of_nat (observed_choices dm) - 1))%Z
    /\ design = design_array (dm_x dm) (length (dm_index dm))
    /\ s' = {| world := (samples E (length (dm_x dm) * (observed_choices dm - 1))
                                 w2).2;
               calls := calls s ++ preparation_calls formula data dm1 dm |}
    /\ let draws := (samples E (length (dm_x dm) * (observed_choices dm - 1))
                             w2).1 in
       let labels := coefficient_labels (map fst (dm_x dm)) (observed_choices dm) in
       (cs = "iid"
        /\ length (scaled draws) = length labels
        /\ start = zip labels (scaled draws))
       \/ (cs = "free"
           /\ exists eye,
               np_eye (Z.of_nat (observed_choices dm) - 1) = Ok eye
               /\ length (scaled draws
                          ++ lower_triangle eye (Z.of_nat (observed_choices dm) - 1))
                  = length (labels ++ covariance_labels (observed_choices dm))
               /\ start
                  = zip (labels ++ covariance_labels (observed_choices dm))
                        (scaled draws
                         ++ lower_triangle eye
                              (Z.of_nat (observed_choices dm) - 1))).
Proof.
  intros Hrun. pose proof (processing_ok_valid _ _ _ _ _ _ _ Hrun) as Hcs.
  revert Hrun. unfold _multinomial_processing.
  destruct (invalid_cov_structure_false cs Hcs) as [-> _].
  unfold bind at 1. unfold call_dmatrices at 1.
  destruct (patsy_dmatrices E formula data (world s)) as [[dm1 |] w1] eqn:H1;
    [| done].
  unfold bind at 1. unfold call_dmatrices at 1. cbn [world logged calls].
  destruct (patsy_dmatrices E formula (dropna (pd_concat dm1)) w1)
    as [[dm |] w2] eqn:H2; [| done].
  fold (observed_choices dm).
  unfold bind at 1. unfold np_random_rand. cbn [world logged calls].
  destruct (Z.ltb_spec (Z.of_nat (length (dm_x dm))
                        * (Z.of_nat (observed_choices dm) - 1)) 0)
    as [Hneg | Hnn]; [done |].
  replace (Z.to_nat (Z.of_nat (length (dm_x dm))
                     * (Z.of_nat (observed_choices dm) - 1)))
    with (length (dm_x dm) * (observed_choices dm - 1))%nat by nia.
  pose proof (samples_length E (length (dm_x dm) * (observed_choices dm - 1)) w2)
    as Hdraws.
  destruct (samples E (length (dm_x dm) * (observed_choices dm - 1)) w2)
    as [draws w3] eqn:Hsamples.
  cbn [fst snd] in *. fold (scaled draws).
  fold (covariance_labels (observed_choices dm)).
  assert (Hlog : logged E
                   (CalledRand (Z.of_nat (length (dm_x dm))
                                * (Z.of_nat (observed_choices dm) - 1))) w3
                   (logged E (CalledDmatrices formula (dropna (pd_concat dm1))) w2
                      (logged E (CalledDmatrices formula data) w1 s))
                 = {| world := w3;
                      calls := calls s ++ preparation_calls formula data dm1 dm |}).
  { unfold logged, preparation_calls. cbn [world calls].
    by rewrite <- !app_assoc. }
  rewrite Hlog. clear Hlog.
  intros Hrest. exists dm1, w1, dm, w2. rewrite Hsamples. cbn [fst snd].
  split; [done |]. split; [done |]. split; [done |].
  revert Hrest. unfold bind at 1.
  destruct Hcs as [-> | ->]; cbn [String.eqb Ascii.eqb Bool.eqb].
  - unfold ret at 1. unfold bind at 1, lift at 1.
    destruct (pd_Series _ _) as [p |] eqn:Hp; [| done].
    apply pd_Series_ok in Hp as (Hlen & -> & _).
    unfold ret at 1. unfold bind, lift.
    destruct (choice_codes _ _) as [codes' |]; [| done].
    unfold ret. intros [= <- <- <- <-].
    split; [done |]. split; [done |]. left. done.
  - unfold bind at 1, lift at 1.
    destruct (np_eye _) as [eye |] eqn:Heye; [| done].
    unfold ret at 1 2. unfold bind at 1, lift at 1.
    destruct (pd_Series _ _) as [p |] eqn:Hp; [| done].
    apply pd_Series_ok in Hp as (Hlen & -> & _).
    unfold ret at 1. unfold bind, lift.
    destruct (choice_codes _ _) as [codes' |]; [| done].
    unfold ret. intros [= <- <- <- <-].
    split; [done |]. split; [done |]. right. split; [done |]. by exists eye.
Qed.

Lemma length_flat_map_const {A B} (f : A -> list B) (l : list A) (k : nat) :
  (forall a, length (f a) = k) -> length (flat_map f l) = (length l * k)%nat.
Proof.
  intros Hf. induction l as [| a l IH]; cbn; [done |].
  rewrite length_app, Hf, IH. lia.
Qed.

Lemma length_coefficient_labels (names : list string) (n : nat) :
  length (coefficient_labels names n) = (length names * (n - 1))%nat.
Proof.
  unfold coefficient_labels. rewrite py_range_pred.
  rewrite (length_flat_map_const _ _ (length names))
    by (intros c; by rewrite length_map).
  rewrite length_seq. lia.
Qed.

Lemma length_covariance_labels (n : nat) :
  length (covariance_labels n) = (n * (n - 1) / 2)%nat.
Proof.
  unfold covariance_labels, py_range. rewrite length_map, length_seq.
  destruct n as [| n]; [done |].
  replace (Z.of_nat (S n) * (Z.of_nat (S n) - 1))%Z
    with (Z.of_nat (S n * (S n - 1))) by lia.
  rewrite Z.quot_div_nonneg by lia.
  change 2%Z with (Z.of_nat 2). by rewrite <- Nat2Z.inj_div, Nat2Z.id.
Qed.

(** X13. The start vector returned by data preparation is labelled, in
    order, by the coefficient labels [(choice_c, betha_name)] for the
    non-reference choices [c] and the design columns, followed under
    ["free"] by the labels [("covariance", k)]; it has
    [n_var * (n_choices - 1)] entries, plus
    [n_choices * (n_choices - 1) / 2] under ["free"]. *)
Theorem start_vector_layout (E : Env) formula data cs (s s' : state E)
        codes design start :
  _multinomial_processing E formula data cs s = (Ok (codes, design, start), s') ->
  exists dm1 w1 dm w2,
    patsy_dmatrices E formula data (world s) = (Ok dm1, w1)
    /\ patsy_dmatrices E formula (dropna (pd_concat dm1)) w1 = (Ok dm, w2)
    /\ nd_cols design = length (dm_x dm)
    /\ map fst start
       = coefficient_labels (map fst (dm_x dm)) (observed_choices dm)
           ++ (if cs =? "iid" then []
               else covariance_labels (observed_choices dm))
    /\ length start
       = (nd_cols design * (observed_choices dm - 1)
          + (if String.eqb cs "iid" then 0
             else observed_choices dm * (observed_choices dm - 1) / 2))%nat.
Proof.
  intros Hrun.
  destruct (processing_start _ _ _ _ _ _ _ _ _ Hrun)
    as (dm1 & w1 & dm & w2 & H1 & H2 & _ & -> & _ & Hstart).
  exists dm1, w1, dm, w2. split; [done |]. split; [done |]. split; [done |].
  cbn [nd_cols design_array].
  assert (Hnames : length (map fst (dm_x dm)) = length (dm_x dm))
    by apply length_map.
  cbn zeta in Hstart.
  destruct Hstart as [(-> & Hlen & ->) | (-> & eye & _ & Hlen & ->)];
    cbn [String.eqb Ascii.eqb Bool.eqb].
  - rewrite app_nil_r. split.
    + rewrite map_fmap. apply fst_zip. lia.
    + rewrite length_zip, Hlen, length_coefficient_labels, Hnames. lia.
  - split.
    + rewrite map_fmap. apply fst_zip. lia.
    + rewrite length_zip, Hlen, length_app, length_coefficient_labels,
        length_covariance_labels, Hnames. lia.
Qed.

Lemma start_vector_layout_witness :
  _multinomial_processing Sample.env "y ~ x" Sample.grades "free" Sample.start
  = (Ok (Runs.grades_codes, Runs.grades_design, Runs.grades_params),
     Runs.grades_state)
  /\ length Runs.grades_params = (2 * (3 - 1) + 3 * (3 - 1) / 2)%nat.
Proof.
  assert (Hrun : _multinomial_processing Sample.env "y ~ x" Sample.grades
                   "free" Sample.start
                 = (Ok (Runs.grades_codes, Runs.grades_design,
                        Runs.grades_params), Runs.grades_state))
    by (by vm_compute).
  split; [exact Hrun |].
  destruct (start_vector_layout _ _ _ _ _ _ _ _ _ Hrun)
    as (dm1 & w1 & dm & w2 & H1 & H2 & _ & _ & Hlen).
  vm_compute in H1. injection H1 as <- <-.
  vm_compute in H2. injection H2 as <- <-.
  exact Hlen.
Defined.

(** ** The start vector in the likelihood *)

Lemma select_app (p1 p2 : Series) (k : string) :
  select (p1 ++ p2) k = select p1 k ++ select p2 k.
Proof. unfold select. by rewrite filter_app, map_app. Qed.

Lemma select_none (p : Series) (k : string) :
  (forall e, In e p -> e.1.1 <> k) -> select p k = [].
Proof.
  unfold select. induction p as [| e p IH]; intros Hp; [done |].
  rewrite filter_cons. destruct (decide (e.1.1 = k)) as [He | _].
  - destruct (Hp e); [by left | done].
  - apply IH. intros e' He'. apply Hp. by right.
Qed.

Lemma select_all (p : Series) (k : string) :
  (forall e, In e p -> e.1.1 = k) -> select p k = map snd p.
Proof.
  unfold select. induction p as [| e p IH]; intros Hp; [done |].
  rewrite filter_cons. destruct (decide (e.1.1 = k)) as [_ | He].
  - cbn. f_equal. apply IH. intros e' He'. apply Hp. by right.
  - destruct He. apply Hp. by left.
Qed.

Lemma in_zip_label (labels : list (string * key)) (vals : list Q) e :
  In e (zip labels vals) -> In e.1 labels.
Proof.
  destruct e as [l v]. intros He. apply list_elem_of_In.
  apply list_elem_of_In in He. by apply elem_of_zip_l in He.
Qed.

Lemma select_zip_all (labels : list (string * key)) (vals : list Q) (k : string) :
  length vals = length labels ->
  (forall l, In l labels -> l.1 = k) ->
  select (zip labels vals) k = vals.
Proof.
  intros Hlen Hl. rewrite select_all.
  - rewrite map_fmap. apply snd_zip. lia.
  - intros e He. apply Hl. by apply in_zip_label in He.
Qed.

Lemma select_zip_none (labels : list (string * key)) (vals : list Q) (k : string) :
  (forall l, In l labels -> l.1 <> k) ->
  select (zip labels vals) k = [].
Proof.
  intros Hl. apply select_none. intros e He.
  apply Hl. by apply in_zip_label in He.
Qed.

Lemma choice_label_not_covariance (c : nat) : choice_label c <> "covariance".
Proof. unfold choice_label. cbn. discriminate. Qed.

Lemma choice_label_inj (c c' : nat) : choice_label c = choice_label c' -> c = c'.
Proof.
  unfold choice_label, str_of_nat. cbn [String.append]. intros [= Heq].
  assert (Hnil : forall x : string, String.append "" x = x) by reflexivity.
  rewrite !Hnil in Heq.
  apply (f_equal NilEmpty.uint_of_string) in Heq.
  rewrite !NilEmpty.usu in Heq. injection Heq as Hu.
  rewrite <- (DecimalNat.Unsigned.of_to c), <- (DecimalNat.Unsigned.of_to c').
  by rewrite Hu.
Qed.

Lemma coefficient_label_first (names : list string) (n : nat) l :
  In l (coefficient_labels names n) ->
  exists c, (c < n - 1)%nat /\ l.1 = choice_label c.
Proof.
  unfold coefficient_labels. rewrite py_range_pred.
  intros Hl. apply in_flat_map in Hl as (c & Hc & Hl).
  apply in_seq in Hc. apply in_map_iff in Hl as (name & <- & _).
  exists c. split; [lia | done].
Qed.

Lemma covariance_label_first (n : nat) l :
  In l (covariance_labels n) -> l.1 = "covariance".
Proof.
  unfold covariance_labels. intros Hl.
  by apply in_map_iff in Hl as (i & <- & _).
Qed.

Lemma identity_square (d : nat) : square d (identity d).
Proof.
  unfold identity. split; [by rewrite length_map, length_seq |].
  apply Forall_forall. intros row Hrow.
  apply list_elem_of_In, in_map_iff in Hrow as [i [<- _]].
  by rewrite length_map, length_seq.
Qed.

Lemma identity_entry (d i j : nat) :
  entry (identity d) i j
  = if (i <? d)%nat && (j <? d)%nat
    then Some (if (i =? j)%nat then 1%Q else 0%Q) else None.
Proof.
  unfold entry, identity.
  rewrite lookup_map.
  destruct (Nat.ltb_spec i d) as [Hi | Hi]; cbn [andb].
  - rewrite lookup_seq_lt by done. cbn [fmap option_fmap option_map].
    rewrite lookup_map.
    destruct (Nat.ltb_spec j d) as [Hj | Hj].
    + by rewrite lookup_seq_lt.
    + by rewrite lookup_seq_ge.
  - by rewrite lookup_seq_ge.
Qed.

Lemma identity_symmetric (d i j : nat) :
  entry (identity d) i j = entry (identity d) j i.
Proof.
  rewrite !identity_entry, (Nat.eqb_sym j i).
  by rewrite (andb_comm (j <? d)%nat).
Qed.

(** X14. With two or more observed categories, the start vector that
    data preparation returns under ["free"] carries the packed identity:
    the likelihood rebuilds from it the identity matrix of dimension
    [n_choices - 1]. *)
Theorem start_covariance_is_identity (E : Env) formula data (s s' : state E)
        codes design start :
  _multinomial_processing E formula data "free" s
  = (Ok (codes, design, start), s') ->
  exists dm1 w1 dm w2,
    patsy_dmatrices E formula data (world s) = (Ok dm1, w1)
    /\ patsy_dmatrices E formula (dropna (pd_concat dm1)) w1 = (Ok dm, w2)
    /\ ((2 <= observed_choices dm)%nat ->
        select start "covariance"
        = lower_triangle (identity (observed_choices dm - 1))
                         (Z.of_nat (observed_choices dm - 1))
        /\ covariance_matrix start "free" (observed_choices dm)
           = Ok (identity (observed_choices dm - 1))).
Proof.
  intros Hrun.
  destruct (processing_start _ _ _ _ _ _ _ _ _ Hrun)
    as (dm1 & w1 & dm & w2 & H1 & H2 & _ & _ & _ & Hstart).
  exists dm1, w1, dm, w2. split; [done |]. split; [done |].
  intros Hn. cbn zeta in Hstart.
  destruct Hstart as [(Hcs & _) | (_ & eye & Heye & Hlen & ->)];
    [discriminate Hcs |].
  set (n := observed_choices dm) in *.
  replace (Z.of_nat n - 1)%Z with (Z.of_nat (n - 1)) in * by lia.
  rewrite np_eye_of_nat in Heye. injection Heye as <-.
  fold (identity (n - 1)) in *.
  set (draws := (samples E (length (dm_x dm) * (n - 1)) w2).1) in *.
  set (labels := coefficient_labels (map fst (dm_x dm)) n) in *.
  set (packed := lower_triangle (identity (n - 1)) (Z.of_nat (n - 1))) in *.
  assert (Hcoef : length (scaled draws) = length labels).
  { unfold scaled, draws, labels.
    rewrite length_map, samples_length, length_coefficient_labels, length_map.
    done. }
  assert (Hpacked : length packed = length (covariance_labels n))
    by (rewrite !length_app in Hlen; lia).
  assert (Hsel : select (zip (labels ++ covariance_labels n)
                             (scaled draws ++ packed)) "covariance" = packed).
  { rewrite zip_with_app by done.
    rewrite select_app, select_zip_none, select_zip_all; [done | done | |].
    - intros l Hl. by apply covariance_label_first in Hl.
    - intros l Hl. apply coefficient_label_first in Hl as (c & _ & ->).
      apply choice_label_not_covariance. }
  split; [exact Hsel |].
  unfold covariance_matrix. cbn [String.eqb Ascii.eqb Bool.eqb].
  replace (Z.of_nat n - 1)%Z with (Z.of_nat (n - 1)) by lia.
  destruct (lower_triangle_entries (identity (n - 1)) (n - 1)
              (identity_square (n - 1))) as [Hplen _].
  fold packed in Hplen.
  pose proof (offset_mono 0 (n - 1) ltac:(lia)) as Hoff. cbn [offset] in Hoff.
  rewrite series_get_block
    by (rewrite Hsel; intros Hnil; rewrite Hnil in Hplen; cbn in Hplen; lia).
  rewrite Hsel. unfold packed.
  apply unpack_of_lower_triangle; [apply identity_square |].
  apply identity_symmetric.
Qed.

Lemma start_covariance_is_identity_witness :
  _multinomial_processing Sample.env "y ~ x" Sample.grades "free" Sample.start
  = (Ok (Runs.grades_codes, Runs.grades_design, Runs.grades_params),
     Runs.grades_state)
  /\ covariance_matrix Runs.grades_params "free" 3 = Ok (identity 2).
Proof.
  assert (Hrun : _multinomial_processing Sample.env "y ~ x" Sample.grades
                   "free" Sample.start
                 = (Ok (Runs.grades_codes, Runs.grades_design,
                        Runs.grades_params), Runs.grades_state))
    by (by vm_compute).
  split; [exact Hrun |].
  destruct (start_covariance_is_identity _ _ _ _ _ _ _ _ Hrun)
    as (dm1 & w1 & dm & w2 & H1 & H2 & Hid).
  vm_compute in H1. injection H1 as <- <-.
  vm_compute in H2. injection H2 as <- <-.
  apply Hid. vm_compute. lia.
Defined.

Lemma select_coefficient_block (names : list string) (i : nat) (cnt : nat) :
  forall (s : nat) (data : list Q),
    length data = (cnt * length names)%nat ->
    select (zip (flat_map (fun choice =>
                             map (fun name => (choice_label choice,
                                               KName (betha_label name)))
                                 names)
                          (seq s cnt))
                data)
           (choice_label i)
    = if decide (s <= i < s + cnt)%nat
      then take (length names) (drop ((i - s) * length names) data)
      else [].
Proof.
  induction cnt as [| cnt IH]; intros s data Hlen.
  - cbn. destruct (decide _); [lia | done].
  - cbn [seq flat_map]. rewrite zip_with_app_l, select_app, length_map.
    rewrite (IH (S s)) by (rewrite length_drop; lia).
    destruct (decide (i = s)) as [-> | His].
    + rewrite select_zip_all.
      * destruct (decide (S s <= s < S s + cnt)%nat); [lia |].
        destruct (decide (s <= s < s + S cnt)%nat); [| lia].
        by rewrite app_nil_r, Nat.sub_diag.
      * rewrite length_take, length_map. lia.
      * intros l Hl. by apply in_map_iff in Hl as (name & <- & _).
    + rewrite select_zip_none.
      * destruct (decide (S s <= i < S s + cnt)%nat) as [Hin | Hout];
          destruct (decide (s <= i < s + S cnt)%nat); try lia; [| done].
        rewrite drop_drop. cbn [app]. do 2 f_equal. nia.
      * intros l Hl. apply in_map_iff in Hl as (name & <- & _). cbn.
        intros Heq. by apply choice_label_inj in Heq.
Qed.

Lemma select_start_block (names : list string) (n : nat) (vals : list Q)
      (rest_labels : list (string * key)) (rest : list Q) (i : nat) :
  length vals = (length names * (n - 1))%nat ->
  (forall l, In l rest_labels -> l.1 = "covariance") ->
  (i < n - 1)%nat ->
  select (zip (coefficient_labels names n ++ rest_labels) (vals ++ rest))
         (choice_label i)
  = take (length names) (drop (i * length names) vals).
Proof.
  intros Hlen Hrest Hi.
  rewrite zip_with_app by (rewrite length_coefficient_labels; lia).
  rewrite select_app, (select_zip_none rest_labels), app_nil_r.
  - unfold coefficient_labels. rewrite py_range_pred.
    rewrite select_coefficient_block by lia.
    destruct (decide (0 <= i < 0 + (n - 1))%nat); [| lia].
    by rewrite Nat.sub_0_r.
  - intros l Hl. rewrite (Hrest l Hl). intros Heq.
    by apply (choice_label_not_covariance i).
Qed.

(** X15. The start vector of data preparation fits the likelihood: for
    every non-reference choice [i] the block [choice_i] holds one start
    value per design column, the scaled random draws
    [i * n_var, ..., i * n_var + n_var - 1] in order, so that the
    coefficient matrix is built from it without failure. *)
Theorem start_coefficients_fit (E : Env) formula data cs (s s' : state E)
        codes design start :
  _multinomial_processing E formula data cs s = (Ok (codes, design, start), s') ->
  exists dm1 w1 dm w2,
    patsy_dmatrices E formula data (world s) = (Ok dm1, w1)
    /\ patsy_dmatrices E formula (dropna (pd_concat dm1)) w1 = (Ok dm, w2)
    /\ (forall i, (i < observed_choices dm - 1)%nat ->
                  select start (choice_label i)
                  = take (nd_cols design)
                         (drop (i * nd_cols design)
                               (scaled (samples E (nd_cols design
                                                   * (observed_choices dm - 1))
                                                w2).1)))
    /\ ((1 <= nd_cols design)%nat ->
        exists bethas,
          coefficient_matrix start (nd_cols design) (observed_choices dm)
          = Ok bethas).
Proof.
  intros Hrun.
  destruct (processing_start _ _ _ _ _ _ _ _ _ Hrun)
    as (dm1 & w1 & dm & w2 & H1 & H2 & _ & -> & _ & Hstart).
  exists dm1, w1, dm, w2. split; [done |]. split; [done |].
  cbn [nd_cols design_array]. cbn zeta in Hstart.
  set (n := observed_choices dm) in *.
  set (draws := (samples E (length (dm_x dm) * (n - 1)) w2).1) in *.
  assert (Hdraws : length (scaled draws)
                   = (length (map fst (dm_x dm)) * (n - 1))%nat).
  { unfold scaled, draws. by rewrite !length_map, samples_length. }
  assert (Hblocks : forall i, (i < n - 1)%nat ->
            select start (choice_label i)
            = take (length (dm_x dm))
                   (drop (i * length (dm_x dm)) (scaled draws))).
  { intros i Hi.
    rewrite <- (length_map (@fst string (list Q)) (dm_x dm)).
    destruct Hstart as [(_ & _ & ->) | (_ & eye & _ & _ & ->)].
    - rewrite <- (app_nil_r (coefficient_labels _ _)).
      rewrite <- (app_nil_r (scaled draws)) at 1.
      by apply select_start_block.
    - apply select_start_block; [done | | done].
      intros l Hl. by apply covariance_label_first in Hl. }
  split; [exact Hblocks |].
  intros Hvar.
  destruct (coefficient_matrix_blocks start (length (dm_x dm)) n Hvar)
    as (bethas & Hb & _).
  - intros j Hj. rewrite Hblocks by done.
    rewrite length_take, length_drop, Hdraws, length_map. nia.
  - by exists bethas.
Qed.

Lemma start_coefficients_fit_witness :
  _multinomial_processing Sample.env "y ~ x" Sample.grades "free" Sample.start
  = (Ok (Runs.grades_codes, Runs.grades_design, Runs.grades_params),
     Runs.grades_state)
  /\ exists bethas,
      coefficient_matrix Runs.grades_params 2 3 = Ok bethas.
Proof.
  assert (Hrun : _multinomial_processing Sample.env "y ~ x" Sample.grades
                   "free" Sample.start
                 = (Ok (Runs.grades_codes, Runs.grades_design,
                        Runs.grades_params), Runs.grades_state))
    by (by vm_compute).
  split; [exact Hrun |].
  destruct (start_coefficients_fit _ _ _ _ _ _ _ _ _ Hrun)
    as (dm1 & w1 & dm & w2 & H1 & H2 & _ & Hfit).
  vm_compute in H1. injection H1 as <- <-.
  vm_compute in H2. injection H2 as <- <-.
  apply Hfit. vm_compute. lia.
Defined.

(** ** The calls of data preparation and of the driver *)

Lemma processing_log (E : Env) formula data cs (s s1 : state E) r :
  _multinomial_processing E formula data cs s = (r, s1) ->
  exists evs,
    calls s1 = calls s ++ evs
    /\ preparation_log E formula data cs s r evs.
Proof.
  unfold _multinomial_processing.
  destruct (invalid_cov_structure cs) eqn:Hinv.
  { intros [= <- <-]. exists []. rewrite app_nil_r.
    split; [done |]. by left. }
  unfold bind at 1. unfold call_dmatrices at 1.
  destruct (patsy_dmatrices E formula data (world s)) as [[dm1 | e1] w1]
    eqn:Hp1.
  2:{ intros [= <- <-]. exists [CalledDmatrices formula data].
      split; [done |]. right; left. by exists e1, w1. }
  unfold bind at 1. unfold call_dmatrices at 1. cbn [world logged calls].
  destruct (patsy_dmatrices E formula (dropna (pd_concat dm1)) w1)
    as [[dm | e2] w2] eqn:Hp2.
  2:{ intros [= <- <-].
      exists [CalledDmatrices formula data;
              CalledDmatrices formula (dropna (pd_concat dm1))].
      split; [unfold logged; cbn [calls]; by rewrite <- ?app_assoc |].
      right; right. exists dm1, w1. split; [done |].
      left. by exists e2, w2. }
  set (k := (Z.of_nat (length (dm_x dm))
             * (Z.of_nat (length (unique_Q (frame_values (dm_y dm)))) - 1))%Z).
  assert (Hthree :
    forall w3,
      let s3 := logged E (CalledRand k) w3
                  (logged E (CalledDmatrices formula (dropna (pd_concat dm1))) w2
                     (logged E (CalledDmatrices formula data) w1 s)) in
      forall r',
      exists evs,
        calls s3 = calls s ++ evs
        /\ preparation_log E formula data cs s r' evs).
  { intros w3 s3 r'.
    exists (preparation_calls formula data dm1 dm).
    split.
    { subst s3 k. unfold logged, preparation_calls, observed_choices.
      cbn [calls]. by rewrite <- ?app_assoc. }
    right; right. exists dm1, w1. split; [done |].
    right. by exists dm, w2. }
  unfold bind at 1. unfold np_random_rand. cbn [world logged calls].
  destruct (k <? 0)%Z.
  { intros [= <- <-]. apply (Hthree w2). }
  destruct (samples E (Z.to_nat k) w2) as [draws w3].
  specialize (Hthree w3). cbn zeta in Hthree.
  set (s3 := logged E (CalledRand k) w3 _) in *.
  assert (Hpure : forall A (c : result A) (st : state E),
            (lift E c st).2 = st).
  { intros A [a | e] st; reflexivity. }
  unfold bind at 1.
  match goal with
  | |- context [match ?c s3 with _ => _ end] =>
      assert (Hc : (c s3).2 = s3)
  end.
  { destruct (cs =? "iid"); [done |].
    unfold bind. pose proof (Hpure _ (np_eye
      (Z.of_nat (length (unique_Q (frame_values (dm_y dm)))) - 1)) s3) as Hl.
    destruct (lift E _ s3) as [[eye |] st]; cbn in Hl; by subst st. }
  match goal with
  | |- context [match ?c s3 with _ => _ end] =>
      destruct (c s3) as [[[index_tuples start_params] |] st]
  end; cbn in Hc; subst st.
  2:{ intros [= <- <-]. apply Hthree. }
  unfold bind at 1.
  pose proof (Hpure _ (pd_Series start_params index_tuples) s3) as Hl.
  destruct (lift E _ s3) as [[p |] st]; cbn in Hl; subst st.
  2:{ intros [= <- <-]. apply Hthree. }
  unfold bind at 1.
  match goal with
  | |- context [lift E ?c s3] => pose proof (Hpure _ c s3) as Hl2
  end.
  destruct (lift E _ s3) as [[codes |] st]; cbn in Hl2; subst st.
  2:{ intros [= <- <-]. apply Hthree. }
  unfold ret. intros [= <- <-]. apply Hthree.
Qed.

Lemma driver_passes_failure (E : Env) formula data cs im algorithm
      (s s1 : state E) e :
  _multinomial_processing E formula data cs s = (Err e, s1) ->
  multinomial_probit E formula data cs im algorithm s = (Err e, s1).
Proof.
  intros Hp. unfold multinomial_probit.
  destruct (invalid_cov_structure cs) eqn:Hinv.
  - revert Hp. unfold _multinomial_processing. rewrite Hinv.
    unfold sys_exit, raise. by intros [= <- <-].
  - unfold bind. by rewrite Hp.
Qed.

(** X16. When data preparation fails, [multinomial_probit] fails with
    the same error and the optimiser is not called. The calls made
    since the start are a prefix of the three calls of data
    preparation, in their order: none when [cov_structure] is refused;
    the parse of the caller's table when this parse fails; this parse
    and the parse of the cleaned table when the second parse fails; the
    two parses and one request for random numbers when the failure
    comes later. *)
Theorem failed_preparation_stops_driver (E : Env) formula data cs im algorithm
        (s s1 : state E) e :
  _multinomial_processing E formula data cs s = (Err e, s1) ->
  multinomial_probit E formula data cs im algorithm s = (Err e, s1)
  /\ exists evs,
      calls s1 = calls s ++ evs
      /\ preparation_log E formula data cs s (Err e) evs.
Proof.
  intros Hp. split; [by apply driver_passes_failure |].
  by apply (processing_log E formula data cs s s1 (Err e)).
Qed.

Lemma failed_preparation_stops_driver_witness :
  _multinomial_processing Sample.env "y ~ x" {| df_index := []; df_columns := [] |}
    "iid" Sample.start
  = (Err (CollaboratorError "PatsyError"),
     logged Sample.env
       (CalledDmatrices "y ~ x" {| df_index := []; df_columns := [] |})
       0%nat Sample.start)
  /\ multinomial_probit Sample.env "y ~ x" {| df_index := []; df_columns := [] |}
       "iid" "gauss_integration" "scipy_lbfgsb" Sample.start
     = (Err (CollaboratorError "PatsyError"),
        logged Sample.env
          (CalledDmatrices "y ~ x" {| df_index := []; df_columns := [] |})
          0%nat Sample.start).
Proof.
  assert (Hp : _multinomial_processing Sample.env "y ~ x"
                 {| df_index := []; df_columns := [] |} "iid" Sample.start
               = (Err (CollaboratorError "PatsyError"),
                  logged Sample.env
                    (CalledDmatrices "y ~ x"
                       {| df_index := []; df_columns := [] |})
                    0%nat Sample.start)) by reflexivity.
  split; [exact Hp |].
  apply (failed_preparation_stops_driver Sample.env "y ~ x"
           {| df_index := []; df_columns := [] |} "iid" "gauss_integration"
           "scipy_lbfgsb" Sample.start _ _ Hp).
Defined.

(** X17. When data preparation succeeds, [multinomial_probit] makes
    exactly four calls, in this order: the parse of the caller's table,
    the parse of the cleaned table, the random draws, and one call of
    the optimiser with the start vector, the algorithm and the keyword
    arguments [y], [x], [cov_structure], [integration_method]; what the
    optimiser returns, result or error, is returned as it is. *)
Theorem driver_calls_in_order (E : Env) formula data cs im algorithm
        (s s1 : state E) codes design start :
  _multinomial_processing E formula data cs s = (Ok (codes, design, start), s1) ->
  exists dm1 w1 dm w2,
    patsy_dmatrices E formula data (world s) = (Ok dm1, w1)
    /\ patsy_dmatrices E formula (dropna (pd_concat dm1)) w1 = (Ok dm, w2)
    /\ let kw := {| kw_y := codes; kw_x := design; kw_cov_structure := cs;
                    kw_integration_method := im |} in
       let out := estimagic_maximize E (criterion E) start algorithm kw
                    (build_constraints cs) (world s1) in
       multinomial_probit E formula data cs im algorithm s
       = (out.1,
          {| world := out.2;
             calls := calls s ++ preparation_calls formula data dm1 dm
                      ++ [CalledMaximize start algorithm kw
                            (build_constraints cs)] |}).
Proof.
  intros Hp.
  destruct (processing_start _ _ _ _ _ _ _ _ _ Hp)
    as (dm1 & w1 & dm & w2 & H1 & H2 & _ & _ & Hs1 & _).
  exists dm1, w1, dm, w2. split; [done |]. split; [done |]. cbn zeta.
  rewrite (multinomial_probit_unfold _ _ _ _ im algorithm _ _ _ _ _ Hp).
  unfold call_maximize, logged.
  destruct (estimagic_maximize E _ _ _ _ _ _) as [r w]. cbn [fst snd].
  rewrite Hs1. cbn [calls]. by rewrite <- app_assoc.
Qed.

Lemma driver_calls_in_order_witness :
  _multinomial_processing Sample.env "y ~ x" Sample.grades "free" Sample.start
  = (Ok (Runs.grades_codes, Runs.grades_design, Runs.grades_params),
     Runs.grades_state)
  /\ length (calls (multinomial_probit Sample.env "y ~ x" Sample.grades "free"
                      "gauss_integration" "scipy_lbfgsb" Sample.start).2)
     = 4%nat.
Proof.
  assert (Hrun : _multinomial_processing Sample.env "y ~ x" Sample.grades
                   "free" Sample.start
                 = (Ok (Runs.grades_codes, Runs.grades_design,
                        Runs.grades_params), Runs.grades_state))
    by (by vm_compute).
  split; [exact Hrun |].
  destruct (driver_calls_in_order Sample.env "y ~ x" Sample.grades "free"
              "gauss_integration" "scipy_lbfgsb" _ _ _ _ _ Hrun)
    as (dm1 & w1 & dm & w2 & _ & _ & Hcalls).
  cbn zeta in Hcalls. rewrite Hcalls. reflexivity.
Defined.

(** ** The order of the choice codes *)




(** ** What the likelihood reads *)

(** X19. The likelihood reads the labelled vector through the blocks
    [choice_0] ... [choice_(n_choices - 2)] and, unless the structure is
    ["iid"], the block [covariance], and through nothing else: two
    vectors that agree on these blocks give the same result, the same
    calls and the same state. Under ["iid"] a covariance block is
    ignored. *)
Theorem likelihood_reads_its_blocks (E : Env) (params params' : Series) y x
        cs im (s : state E) :
  cs = "iid" \/ select params' "covariance" = select params "covariance" ->
  (forall i, (i < length (np_unique y) - 1)%nat ->
             select params' (choice_label i) = select params (choice_label i)) ->
  _multinomial_probit_loglikeobs E params' y x cs im s
  = _multinomial_probit_loglikeobs E params y x cs im s.
Proof.
  intros Hcov Hblocks.
  assert (Hprep : utilities_and_covariance params' y x cs
                  = utilities_and_covariance params y x cs).
  { unfold utilities_and_covariance.
    assert (Hc : covariance_matrix params' cs (length (np_unique y))
                 = covariance_matrix params cs (length (np_unique y))).
    { unfold covariance_matrix. destruct (cs =? "iid") eqn:Hcs; [done |].
      destruct Hcov as [-> | Hsel]; [done |].
      unfold series_get. by rewrite Hsel. }
    rewrite Hc.
    destruct (covariance_matrix params cs _) as [cov |]; [| done].
    unfold coefficient_matrix.
    destruct (np_zeros _ _) as [b |]; [| done].
    rewrite (fill_columns_ext params params'); [done |].
    intros i Hi. rewrite py_range_pred in Hi. apply in_seq in Hi.
    apply Hblocks. lia. }
  unfold _multinomial_probit_loglikeobs. by rewrite Hprep.
Qed.

Lemma likelihood_reads_its_blocks_witness :
  ("iid" = "iid"
   \/ select (Sample.binary_params ++ [(("covariance", KIndex 0), 5%Q)])
             "covariance"
      = select Sample.binary_params "covariance")
  /\ _multinomial_probit_loglikeobs Sample.env
       (Sample.binary_params ++ [(("covariance", KIndex 0), 5%Q)])
       [0; 1]%Z Sample.binary_x "iid" "gauss_integration" Sample.start
     = _multinomial_probit_loglikeobs Sample.env Sample.binary_params
         [0; 1]%Z Sample.binary_x "iid" "gauss_integration" Sample.start.
Proof.
  split; [by left |].
  apply (likelihood_reads_its_blocks Sample.env Sample.binary_params
           (Sample.binary_params ++ [(("covariance", KIndex 0), 5%Q)])
           [0; 1]%Z Sample.binary_x "iid" "gauss_integration" Sample.start).
  - by left.
  - intros i Hi. vm_compute in Hi.
    destruct i as [| i]; [reflexivity | lia].
Defined.

(** X20. When all observations carry one and the same choice, the
    likelihood under ["iid"] needs no parameter at all: whatever the
    labelled vector is, the utilities are computed, as one column that
    is zero, and the covariance handed to the routine is the empty
    matrix. *)
Theorem single_category_needs_no_parameter (params : Series) (y : list Z)
        (x : ndarray) :
  length (np_unique y) = 1%nat ->
  exists u_prime,
    utilities_and_covariance params y x "iid" = Ok (u_prime, [])
    /\ length u_prime = length (nd_rows x)
    /\ Forall (fun row => exists q, row = [q] /\ (q == 0)%Q) u_prime.
Proof.
  intros Hn. unfold utilities_and_covariance. rewrite Hn.
  unfold covariance_matrix, coefficient_matrix, np_zeros. cbn [String.eqb Ascii.eqb Bool.eqb].
  change (Z.of_nat 1 - 1)%Z with (Z.of_nat 0).
  rewrite np_eye_of_nat. unfold np_ones.
  rewrite !np_full_of_nat, py_range_of_nat. cbn [seq map replicate mat_add zip_with fill_columns].
  eexists. split; [done |]. split; [unfold dot; by rewrite length_map |].
  apply Forall_forall. intros row Hrow.
  unfold dot in Hrow. apply list_elem_of_In, in_map_iff in Hrow as [xrow [<- _]].
  cbn [seq map]. eexists. split; [done |].
  apply dot_row_null. apply Forall_replicate. done.
Qed.

Lemma single_category_needs_no_parameter_witness :
  length (np_unique [4; 4]%Z) = 1%nat
  /\ exists u_prime,
      utilities_and_covariance [] [4; 4]%Z Sample.binary_x "iid"
      = Ok (u_prime, []).
Proof.
  assert (Hn : length (np_unique [4; 4]%Z) = 1%nat) by (by vm_compute).
  split; [exact Hn |].
  destruct (single_category_needs_no_parameter [] [4; 4]%Z Sample.binary_x Hn)
    as (u & Hu & _).
  by exists u.
Defined.
